(** * Gemini text summariser: markup converter and PDF renderer

    A shallow embedding of [convert_markdown_to_html] and
    [save_summary_as_pdf] of [main.py], with the properties of the
    converter (order of the rules, totality, frame, idempotence) and of the
    renderer (clock readings, word count, missing ReportLab), and of the
    script around them: the key, the call to Gemini, the summarise and
    export buttons and the summary kept in the session. *)

From Stdlib Require Import String Ascii NArith Arith Lia DecimalNat.
From stdpp Require Import base option list gmap.

Local Open Scope N_scope.
Local Open Scope nat_scope.

(** ** Python strings

    A Python [str] is a sequence of Unicode code points: [.] in a pattern
    and [str.replace] work on code points, not on bytes. *)

Definition char : Type := N.
Definition str : Type := list char.

(** An ASCII literal of the source, as code points. *)
Definition py (s : string) : str := map N_of_ascii (list_ascii_of_string s).

Definition newline : char := 10%N.      (* "\n" *)
Definition asterisk : char := 42%N.     (* "*"  *)
Definition bullet : char := 8226%N.     (* U+2022 *)

(** ** The two patterns of the converter

    Both patterns have the shape [D(.*?)D] with a literal delimiter [D]
    ([\*\*] or [\*]) and are compiled without [re.DOTALL], so [.] matches
    any character except a line break. *)

(** [s] starts with [d]: what is left of [s] after it. *)
Fixpoint strip_prefix (d s : str) : option str :=
  match d, s with
  | [], _ => Some s
  | _ :: _, [] => None
  | a :: d', b :: s' => if N.eqb a b then strip_prefix d' s' else None
  end.

(** The lazy group followed by the closing delimiter, tried at the start of
    [s]: zero characters first, then one more character at a time, none of
    them a line break.  The result is the captured group and the text after
    the closing delimiter. *)
Fixpoint lazy_until (d s : str) : option (str * str) :=
  match strip_prefix d s with
  | Some rest => Some ([], rest)
  | None =>
      match s with
      | [] => None
      | c :: s' =>
          if N.eqb c newline then None
          else match lazy_until d s' with
               | Some (x, rest) => Some (c :: x, rest)
               | None => None
               end
      end
  end.

(** One attempt of [D(.*?)D] at the start of [text]. *)
Definition match_at (d text : str) : option (str * str) :=
  match strip_prefix d text with
  | Some body => lazy_until d body
  | None => None
  end.

(** [re.sub(D(.*?)D, open\1close, text)]: the scan goes left to right; where
    the pattern matches, the replacement is written and the scan resumes
    after the match, elsewhere the character is copied.  [None] means that
    the fuel ran out before the end of the text. *)
Fixpoint sub_loop (d open close : str) (fuel : nat) (text : str) : option str :=
  match fuel with
  | O => None
  | S n =>
      match text with
      | [] => Some []
      | c :: rest =>
          match match_at d text with
          | Some (x, after) =>
              option_map (app (open ++ x ++ close)) (sub_loop d open close n after)
          | None => option_map (cons c) (sub_loop d open close n rest)
          end
      end
  end.

Definition re_sub_run (d open close text : str) : option str :=
  sub_loop d open close (S (length text)) text.

Definition re_sub (d open close text : str) : str :=
  default text (re_sub_run d open close text).

(** [text.replace(old, new)] for a one-character [old]. *)
Fixpoint replace (old : char) (new text : str) : str :=
  match text with
  | [] => []
  | c :: rest =>
      if N.eqb c old then new ++ replace old new rest
      else c :: replace old new rest
  end.

(** ** convert_markdown_to_html *)

Definition bold_delim : str := py "**".
Definition italic_delim : str := py "*".
Definition b_open : str := py "<b>".
Definition b_close : str := py "</b>".
Definition i_open : str := py "<i>".
Definition i_close : str := py "</i>".
Definition br_tag : str := py "<br/>".
Definition bull_entity : str := py "&bull;".

Definition bold_pass : str -> str := re_sub bold_delim b_open b_close.
Definition italic_pass : str -> str := re_sub italic_delim i_open i_close.
Definition break_pass : str -> str := replace newline br_tag.
Definition bullet_pass : str -> str := replace bullet bull_entity.

Definition convert_markdown_to_html (text : str) : str :=
  let text := bold_pass text in
  let text := italic_pass text in
  let text := break_pass text in
  let text := bullet_pass text in
  text.

(** The same four statements with the scans run on fuel: [None] would be a
    scan that does not reach the end of its text. *)
Definition convert_run (text : str) : option str :=
  match re_sub_run bold_delim b_open b_close text with
  | Some t1 =>
      match re_sub_run italic_delim i_open i_close t1 with
      | Some t2 => Some (bullet_pass (break_pass t2))
      | None => None
      end
  | None => None
  end.

(** [x] is the shortest stretch of [body] that is followed by [d]. *)
Definition shortest_span (d x body after : str) : Prop :=
  body = x ++ d ++ after /\
  forall x' after', body = x' ++ d ++ after' -> length x <= length x'.

(** Occurrences of a character. *)
Fixpoint count (a : char) (s : str) : nat :=
  match s with
  | [] => 0
  | c :: rest => (if N.eqb c a then 1 else 0) + count a rest
  end.

(** The characters that a rule of the converter looks for. *)
Definition rewritten (c : char) : bool :=
  N.eqb c asterisk || N.eqb c newline || N.eqb c bullet.

(** The pieces of markup that the rules write. *)
Definition tags : list str :=
  [b_open; b_close; i_open; i_close; br_tag; bull_entity].

(** ** str.split()

    Without an argument, [split] cuts at runs of white space and returns the
    words between them, none of them empty.  The white space of a [str] is
    what [str.isspace] accepts. *)

Definition between (lo hi c : N) : bool := N.leb lo c && N.leb c hi.

Definition isspace (c : char) : bool :=
  between 9 13 c || between 28 32 c || N.eqb c 133 || N.eqb c 160 ||
  N.eqb c 5760 || between 8192 8202 c || N.eqb c 8232 || N.eqb c 8233 ||
  N.eqb c 8239 || N.eqb c 8287 || N.eqb c 12288.

(** [cur] is the word being read, if one was begun. *)
Fixpoint split_loop (cur : option str) (s : str) : list str :=
  match s with
  | [] => match cur with Some w => [w] | None => [] end
  | c :: rest =>
      if isspace c then
        match cur with
        | Some w => w :: split_loop None rest
        | None => split_loop None rest
        end
      else
        split_loop (Some (match cur with Some w => w ++ [c] | None => [c] end)) rest
  end.

Definition split (text : str) : list str := split_loop None text.

(** The number of whitespace-delimited tokens, counted where they begin: at a
    character that is not white space and that opens the text or follows
    white space. *)
Fixpoint token_starts (after_space : bool) (s : str) : nat :=
  match s with
  | [] => 0
  | c :: rest =>
      if isspace c then token_starts true rest
      else (if after_space then 1 else 0) + token_starts false rest
  end.

Definition whitespace_delimited_tokens (text : str) : nat := token_starts true text.

(** ** Numbers in text *)

Fixpoint uint_chars (d : Decimal.uint) : str :=
  match d with
  | Decimal.Nil => []
  | Decimal.D0 d => 48%N :: uint_chars d
  | Decimal.D1 d => 49%N :: uint_chars d
  | Decimal.D2 d => 50%N :: uint_chars d
  | Decimal.D3 d => 51%N :: uint_chars d
  | Decimal.D4 d => 52%N :: uint_chars d
  | Decimal.D5 d => 53%N :: uint_chars d
  | Decimal.D6 d => 54%N :: uint_chars d
  | Decimal.D7 d => 55%N :: uint_chars d
  | Decimal.D8 d => 56%N :: uint_chars d
  | Decimal.D9 d => 57%N :: uint_chars d
  end.

(** [str(n)], as an f-string writes a number. *)
Definition repr_nat (n : nat) : str := uint_chars (Nat.to_uint n).

(** A number written on at least [width] digits. *)
Definition zero_padded (width n : nat) : str :=
  let s := repr_nat n in
  replicate (width - length s) 48%N ++ s.

(** ** datetime

    The fields that the two formats print; the microsecond is part of the
    reading and printed by neither. *)

Record datetime : Type := {
  year : nat;
  month : nat;
  day : nat;
  hour : nat;
  minute : nat;
  second : nat;
  microsecond : N
}.

Definition month_name (m : nat) : str :=
  match m with
  | 1 => py "January" | 2 => py "February" | 3 => py "March"
  | 4 => py "April" | 5 => py "May" | 6 => py "June"
  | 7 => py "July" | 8 => py "August" | 9 => py "September"
  | 10 => py "October" | 11 => py "November" | 12 => py "December"
  | _ => []
  end.

Definition hour12 (h : nat) : nat :=
  match h mod 12 with 0 => 12 | r => r end.

(** The directives that the two format strings use, in the C locale; [%Y]
    is the year as a plain number, four digits from 1000 to 9999. *)
Definition directive (c : char) (t : datetime) : str :=
  if N.eqb c 89 (* Y *) then repr_nat (year t)
  else if N.eqb c 109 (* m *) then zero_padded 2 (month t)
  else if N.eqb c 100 (* d *) then zero_padded 2 (day t)
  else if N.eqb c 72 (* H *) then zero_padded 2 (hour t)
  else if N.eqb c 77 (* M *) then zero_padded 2 (minute t)
  else if N.eqb c 83 (* S *) then zero_padded 2 (second t)
  else if N.eqb c 66 (* B *) then month_name (month t)
  else if N.eqb c 73 (* I *) then zero_padded 2 (hour12 (hour t))
  else if N.eqb c 112 (* p *) then (if hour t <? 12 then py "AM" else py "PM")
  else [37%N; c].

Fixpoint strftime (fmt : str) (t : datetime) : str :=
  match fmt with
  | [] => []
  | c :: rest =>
      if N.eqb c 37 (* % *) then
        match rest with
        | [] => [c]
        | d :: rest' => directive d t ++ strftime rest' t
        end
      else c :: strftime rest t
  end.

(** ** The document, as ReportLab is given it

    Lengths are kept in hundredths, of a point or of an inch, as the source
    writes them ([0.35 * inch], a [0.75] point line). *)

Inductive measure : Type :=
| Points (hundredths : nat)
| Inches (hundredths : nat).

Inductive color : Type :=
| HexColor (hex : str)
| white.

Inductive pagesize : Type := A4_sheet.

Record ParagraphStyle : Type := {
  style_name : str;
  fontSize : nat;
  leading : nat;
  alignment : nat;
  textColor : color;
  spaceAfter : nat
}.

(** One command of a [TableStyle] over the cells from [(sc, sr)] to
    [(ec, er)]. *)
Inductive style_arg : Type :=
| ArgColor (c : color)
| ArgText (s : str)
| ArgNumber (n : nat)
| ArgLine (width : measure) (c : color).

Record style_cmd : Type := {
  cmd_name : str;
  cmd_from : Z * Z;
  cmd_to : Z * Z;
  cmd_arg : style_arg
}.

Inductive flowable : Type :=
| Para (text : str) (style : ParagraphStyle)
| Spacer (width : nat) (height : measure)
| Table (rows : list (list cell)) (colWidths : list measure) (style : list style_cmd)
with cell : Type :=
| CellText (s : str)
| CellFlowable (f : flowable).

Record SimpleDocTemplate : Type := {
  doc_filename : str;
  doc_pagesize : pagesize;
  leftMargin : nat;
  rightMargin : nat;
  topMargin : nat;
  bottomMargin : nat
}.

(** What a finished build leaves on disk under the document's name. *)
Record pdf_file : Type := {
  pdf_template : SimpleDocTemplate;
  pdf_story : list flowable
}.

(** ** The world around the renderer

    [A4] is the module-level name bound by the guarded import of lines
    16-23: the page size, or [None] when ReportLab could not be imported.
    The clock is the sequence of readings that [datetime.now()] will give.
    Whether ReportLab accepts a paragraph's markup and whether a build goes
    through is ReportLab's matter: both are taken as given.  A build that
    raises is modelled as leaving the disk alone; nothing below rests on
    that. *)

Inductive exn : Type :=
| RuntimeError (msg : str)
| ReportLabError.

Inductive result (A : Type) : Type :=
| Return (a : A)
| Raise (e : exn).
Arguments Return {A} a.
Arguments Raise {A} e.

Record World : Type := {
  A4 : option pagesize;
  clock : nat -> datetime;
  reads : nat;
  paragraph_ok : str -> bool;
  build_ok : list flowable -> bool;
  disk : gmap str pdf_file
}.

Definition M (A : Type) : Type := World -> result A * World.

Definition raise {A : Type} (e : exn) : M A := fun w => (Raise e, w).

#[global] Instance M_ret : MRet M := fun A a w => (Return a, w).

#[global] Instance M_bind : MBind M :=
  fun A B k m w =>
    match m w with
    | (Return a, w') => k a w'
    | (Raise e, w') => (Raise e, w')
    end.

(** The module-level [A4]. *)
Definition global_A4 : M (option pagesize) := fun w => (Return (A4 w), w).

(** One more reading taken. *)
Definition tick (w : World) : World :=
  {| A4 := A4 w; clock := clock w; reads := S (reads w);
     paragraph_ok := paragraph_ok w; build_ok := build_ok w; disk := disk w |}.

(** A file written, over whatever had that name. *)
Definition write_file (name : str) (file : pdf_file) (w : World) : World :=
  {| A4 := A4 w; clock := clock w; reads := reads w;
     paragraph_ok := paragraph_ok w; build_ok := build_ok w;
     disk := <[name := file]> (disk w) |}.

(** [datetime.now()]: the next reading of the clock. *)
Definition datetime_now : M datetime :=
  fun w => (Return (clock w (reads w)), tick w).

(** [Paragraph(text, style)]: the markup is parsed when the paragraph is
    made. *)
Definition Paragraph (text : str) (style : ParagraphStyle) : M flowable :=
  fun w =>
    if paragraph_ok w text then (Return (Para text style), w)
    else (Raise ReportLabError, w).

(** [doc.build(content)]: the file appears when the build is done. *)
Definition build (doc : SimpleDocTemplate) (content : list flowable) : M unit :=
  fun w =>
    if build_ok w content then
      (Return tt,
       write_file (doc_filename doc) {| pdf_template := doc; pdf_story := content |} w)
    else (Raise ReportLabError, w).

(** ** save_summary_as_pdf *)

Definition title_style : ParagraphStyle :=
  {| style_name := py "Title"; fontSize := 22; leading := 26; alignment := 1;
     textColor := HexColor (py "#1E3A8A"); spaceAfter := 12 |}.

Definition subtitle_style : ParagraphStyle :=
  {| style_name := py "Subtitle"; fontSize := 13; leading := 18; alignment := 1;
     textColor := HexColor (py "#334155"); spaceAfter := 18 |}.

Definition body_style : ParagraphStyle :=
  {| style_name := py "Body"; fontSize := 12; leading := 18; alignment := 0;
     textColor := HexColor (py "#0F172A"); spaceAfter := 10 |}.

Definition footer_style : ParagraphStyle :=
  {| style_name := py "Footer"; fontSize := 9; leading := 12; alignment := 1;
     textColor := HexColor (py "#6B7280"); spaceAfter := 0 |}.

Definition whole_table (name : string) (arg : style_arg) : style_cmd :=
  {| cmd_name := py name; cmd_from := (0, 0)%Z; cmd_to := (-1, -1)%Z; cmd_arg := arg |}.

Definition one_cell (name : string) (col : Z) (arg : style_arg) : style_cmd :=
  {| cmd_name := py name; cmd_from := (col, 0)%Z; cmd_to := (col, 0)%Z; cmd_arg := arg |}.

Definition header_table : flowable :=
  Table
    [[CellText (129504%N :: py " AI Text Summarizer");
      CellText (py "Gemini 2.5 Pro | AI Generated Summary")]]
    [Inches 350; Inches 300]
    [whole_table "BACKGROUND" (ArgColor (HexColor (py "#2563EB")));
     whole_table "TEXTCOLOR" (ArgColor white);
     one_cell "ALIGN" 0 (ArgText (py "LEFT"));
     one_cell "ALIGN" 1 (ArgText (py "RIGHT"));
     whole_table "FONTNAME" (ArgText (py "Helvetica-Bold"));
     whole_table "FONTSIZE" (ArgNumber 13);
     whole_table "TOPPADDING" (ArgNumber 8);
     whole_table "BOTTOMPADDING" (ArgNumber 8)].

Definition card_of (paragraph : flowable) : flowable :=
  Table
    [[CellFlowable paragraph]]
    [Inches 600]
    [whole_table "BACKGROUND" (ArgColor (HexColor (py "#EFF6FF")));
     whole_table "BOX" (ArgLine (Points 75) (HexColor (py "#93C5FD")));
     whole_table "INNERPADDING" (ArgNumber 14)].

Definition filename_of (t : datetime) : str :=
  py "AI_Summary_" ++ strftime (py "%Y%m%d_%H%M%S") t ++ py ".pdf".

Definition generated_on (t : datetime) : str :=
  strftime (py "%B %d, %Y - %I:%M %p") t.

(** The footer, with the text of its two fields. *)
Definition footer_with (stamp words : str) : str :=
  py "<b>Generated on:</b> " ++ stamp ++ py "  |  " ++
  py "<b>Word Count:</b> " ++ words ++ py "<br/>" ++
  py "<font color='#9CA3AF'>Made with " ++ [10084%N; 65039%N] ++
  py " using Streamlit & Gemini</font>".

Definition footer_text (t : datetime) (summary_text : str) : str :=
  footer_with (generated_on t) (repr_nat (length (split summary_text))).

Definition title_text : str := 10024%N :: py " Executive Summary".

Definition subtitle_text : str :=
  py "Clean " ++ [bullet] ++ py " Concise " ++ [bullet] ++ py " Insightful".

Definition unavailable_message : str :=
  py "ReportLab is not installed. Install dependencies to export PDF.".

Definition save_summary_as_pdf (summary_text : str) : M str :=
  a4 ← global_A4;
  match a4 with
  | None => raise (RuntimeError unavailable_message)
  | Some page =>
      named ← datetime_now;
      let filename := filename_of named in
      let doc :=
        {| doc_filename := filename; doc_pagesize := page;
           leftMargin := 60; rightMargin := 60; topMargin := 80; bottomMargin := 60 |} in
      let formatted := convert_markdown_to_html summary_text in
      body ← Paragraph formatted body_style;
      let card := card_of body in
      title ← Paragraph title_text title_style;
      subtitle ← Paragraph subtitle_text subtitle_style;
      let content :=
        [header_table; Spacer 1 (Inches 35); title; subtitle; card; Spacer 1 (Inches 40)] in
      stamped ← datetime_now;
      footer ← Paragraph (footer_text stamped summary_text) footer_style;
      let content := content ++ [footer] in
      _ ← build doc content;
      mret filename
  end.

(** The content list of a finished call: the seven blocks, top to bottom,
    the footer last. *)
Definition blocks_above_footer (summary_text : str) : list flowable :=
  [header_table;
   Spacer 1 (Inches 35);
   Para title_text title_style;
   Para subtitle_text subtitle_style;
   card_of (Para (convert_markdown_to_html summary_text) body_style);
   Spacer 1 (Inches 40)].

Definition story (stamped : datetime) (summary_text : str) : list flowable :=
  blocks_above_footer summary_text ++ [Para (footer_text stamped summary_text) footer_style].

Definition template (page : pagesize) (filename : str) : SimpleDocTemplate :=
  {| doc_filename := filename; doc_pagesize := page;
     leftMargin := 60; rightMargin := 60; topMargin := 80; bottomMargin := 60 |}.

(** The two readings that a call starting in [w] takes. *)
Definition first_reading (w : World) : datetime := clock w (reads w).
Definition second_reading (w : World) : datetime := clock w (S (reads w)).

(** The world after a finished call. *)
Definition after_save (w : World) (page : pagesize) (summary_text : str) : World :=
  write_file (filename_of (first_reading w))
    {| pdf_template := template page (filename_of (first_reading w));
       pdf_story := story (second_reading w) summary_text |}
    (tick (tick w)).

(** Two readings in the same minute. *)
Definition same_minute (t u : datetime) : Prop :=
  year t = year u /\ month t = month u /\ day t = day u /\
  hour t = hour u /\ minute t = minute u.

(** The paragraphs of a call, which ReportLab has to accept. *)
Definition paragraphs (stamped : datetime) (summary_text : str) : list str :=
  [convert_markdown_to_html summary_text; title_text; subtitle_text;
   footer_text stamped summary_text].

(** A world in which ReportLab is there and accepts everything: the clock
    gives [first] and from then on [later]. *)
Definition friendly_world (first later : datetime) : World :=
  {| A4 := Some A4_sheet;
     clock := fun n => match n with 0 => first | _ => later end;
     reads := 0;
     paragraph_ok := fun _ => true;
     build_ok := fun _ => true;
     disk := ∅ |}.

(** A world without ReportLab. *)
Definition bare_world (t : datetime) : World :=
  {| A4 := None;
     clock := fun _ => t;
     reads := 0;
     paragraph_ok := fun _ => false;
     build_ok := fun _ => false;
     disk := ∅ |}.

Definition new_years_eve : datetime :=
  {| year := 2024; month := 12; day := 31; hour := 23; minute := 59; second := 59;
     microsecond := 999990%N |}.

Definition new_year : datetime :=
  {| year := 2025; month := 1; day := 1; hour := 0; minute := 0; second := 0;
     microsecond := 12%N |}.

Definition scenario_text : str :=
  py "**Key Point**: growth *accelerated* in Q2." ++ [newline; bullet] ++ py " Revenue up".

(** [needle in hay]. *)
Fixpoint contains (needle hay : str) : bool :=
  match strip_prefix needle hay with
  | Some _ => true
  | None =>
      match hay with
      | [] => false
      | _ :: rest => contains needle rest
      end
  end.

Definition starts_with_asterisk (s : str) : bool :=
  match s with
  | c :: _ => N.eqb c asterisk
  | [] => false
  end.

Definition span_over_break : str := py "a" ++ [newline] ++ py "b".

Definition italic_over_break : str := py "*a" ++ [newline] ++ py "b*".

Definition bulleted_words : str := py "Key " ++ [bullet] ++ py " Point".

(** A character that occurs in some tag. *)
Definition markup_char (c : char) : bool :=
  existsb (fun tag => existsb (N.eqb c) tag) tags.

(** [frame s o]: [o] is [s] with some of the characters that the rules look
    for taken out and characters of the tags put in; every other character
    stays, where it was among the others. *)
Inductive frame : str -> str -> Prop :=
| frame_nil : frame [] []
| frame_keep (c : char) (s o : str) : frame s o -> frame (c :: s) (c :: o)
| frame_drop (c : char) (s o : str) : rewritten c = true -> frame s o -> frame (c :: s) o
| frame_put (c : char) (s o : str) : markup_char c = true -> frame s o -> frame s (c :: o).

(** The characters of a text that no rule looks for. *)
Definition untouched (s : str) : str :=
  List.filter (fun c => negb (rewritten c)) s.

(** What it is for [pass] to be the substitution of [D(.*?)D] by
    [open\1close]: at a position where the pattern matches, the group goes
    between the tags and the pass goes on after the match; elsewhere one
    character is copied. *)
Definition scan_rule (d open close : str) (pass : str -> str) : Prop :=
  pass [] = [] /\
  (forall c rest, match_at d (c :: rest) = None -> pass (c :: rest) = c :: pass rest) /\
  (forall s x after,
      s <> [] -> match_at d s = Some (x, after) ->
      pass s = open ++ x ++ close ++ pass after).

(** What it is for [pass] to replace every [old] by [new]. *)
Definition replace_rule (old : char) (new : str) (pass : str -> str) : Prop :=
  pass [] = [] /\
  (forall c rest,
      pass (c :: rest) = (if N.eqb c old then new else [c]) ++ pass rest) /\
  (forall s, old ∉ pass s).

Definition is_digit (c : char) : bool := between 48 57 c.

(** ** The rest of the script: key, Gemini and the two buttons

    [environ] is [os.environ] once [load_dotenv()] has run.  [genai] says
    whether the import of line 12 went through ([genai] is not [None]).
    The service is taken as given: for a prompt it raises ([None]), or
    answers with a response that has a [text] or has none.  [sent] keeps
    the prompts that went out, [configured] the key last handed to
    [genai.configure].  [session_state] is Streamlit's dictionary. *)

Inductive response : Type :=
| TextIs (s : str)
| NoText.

Inductive failure : Type :=
| Raised (e : exn)
| AttributeError
| GenaiError
| FileNotFoundError.

Inductive outcome (A : Type) : Type :=
| Ok (a : A)
| Failed (f : failure).
Arguments Ok {A} a.
Arguments Failed {A} f.

Record App : Type := {
  world : World;
  environ : gmap str str;
  genai : bool;
  generate_content : str -> option response;
  configured : option str;
  sent : list str;
  session_state : gmap str str
}.

Definition with_world (w : World) (a : App) : App :=
  {| world := w; environ := environ a; genai := genai a;
     generate_content := generate_content a; configured := configured a;
     sent := sent a; session_state := session_state a |}.

Definition with_configured (key : str) (a : App) : App :=
  {| world := world a; environ := environ a; genai := genai a;
     generate_content := generate_content a; configured := Some key;
     sent := sent a; session_state := session_state a |}.

Definition with_sent (prompt : str) (a : App) : App :=
  {| world := world a; environ := environ a; genai := genai a;
     generate_content := generate_content a; configured := configured a;
     sent := sent a ++ [prompt]; session_state := session_state a |}.

Definition with_session (s : gmap str str) (a : App) : App :=
  {| world := world a; environ := environ a; genai := genai a;
     generate_content := generate_content a; configured := configured a;
     sent := sent a; session_state := s |}.

(** A string in a condition: true unless empty. *)
Definition truthy (s : str) : bool :=
  match s with
  | [] => false
  | _ :: _ => true
  end.

(** [s.strip()]: the white space at both ends goes. *)
Fixpoint lstrip (s : str) : str :=
  match s with
  | [] => []
  | c :: rest => if isspace c then lstrip rest else s
  end.

Definition rstrip (s : str) : str := rev (lstrip (rev s)).

Definition strip (s : str) : str := rstrip (lstrip s).

Definition get_api_key (a : App) : str :=
  default ([] : str) (environ a !! py "GEMINI_API_KEY").

Definition not_installed_message : str :=
  py "google-generativeai is not installed. Please install dependencies.".

Definition key_not_set_message : str :=
  py "GEMINI_API_KEY not set. Add it to your .env or environment.".

Definition configure_gemini (api_key : str) (a : App) : outcome unit * App :=
  if negb (genai a) then (Failed (Raised (RuntimeError not_installed_message)), a)
  else if negb (truthy api_key) then (Failed (Raised (RuntimeError key_not_set_message)), a)
  else (Ok tt, with_configured api_key a).

Definition SUMMARY_PROMPT : str :=
  py "You are a text summarizer. Read the given text and summarize it in a clear, " ++
  py "concise, and informative way within 200" ++ [8211%N] ++
  py "250 words. Use bullet points for key takeaways if suitable." ++
  [newline; newline] ++ py "Text:" ++ [newline; newline].

(** With [genai] at [None] the first line has no [GenerativeModel] to
    reach.  [getattr(response, "text", "")] gives the empty string for a
    response without [text]. *)
Definition generate_gemini_summary (input_text : str) (a : App) : outcome str * App :=
  if negb (genai a) then (Failed AttributeError, a)
  else
    let prompt := SUMMARY_PROMPT ++ input_text in
    let a := with_sent prompt a in
    match generate_content a prompt with
    | None => (Failed GenaiError, a)
    | Some (TextIs s) => (Ok s, a)
    | Some NoText => (Ok [], a)
    end.

(** What the script puts on the page, as far as it depends on the state:
    the fixed headings, labels and styles are left out.  [st_error_with]
    is [st.error(f"{prefix}{e}")] with the exception kept as it is. *)
Inductive ui : Type :=
| st_warning (msg : str)
| st_error (msg : str)
| st_error_with (prefix : str) (cause : failure)
| st_markdown (html : str)
| st_download_button (data : pdf_file) (file_name mime : str).

(** [str(e)] where the code fixes it. *)
Definition failure_text (f : failure) : option str :=
  match f with
  | Raised (RuntimeError msg) => Some msg
  | _ => None
  end.

Definition last_summary_key : str := py "last_summary".

Definition last_summary (a : App) : str :=
  default ([] : str) (session_state a !! last_summary_key).

Definition set_last_summary (s : str) (a : App) : App :=
  with_session (<[last_summary_key := s]> (session_state a)) a.

(** Lines 240-241. *)
Definition init_session (a : App) : App :=
  match session_state a !! last_summary_key with
  | Some _ => a
  | None => set_last_summary [] a
  end.

Definition blank_warning : str := py "Please paste some text to summarize.".

Definition key_error : str :=
  py "GEMINI_API_KEY not set. Add it to your environment or .env, then reload.".

Definition summary_failed : str := py "Failed to generate summary: ".

Definition no_content : str := py "(No content returned)".

(** Lines 243-255: the body of [if summarize_clicked]. *)
Definition summarize_branch (api_key user_text : str) (a : App) : list ui * App :=
  if negb (truthy user_text) || negb (truthy (strip user_text)) then
    ([st_warning blank_warning], a)
  else if negb (truthy api_key) then
    ([st_error key_error], a)
  else
    match configure_gemini api_key a with
    | (Failed f, a) => ([st_error_with summary_failed f], a)
    | (Ok _, a) =>
        match generate_gemini_summary user_text a with
        | (Failed f, a) => ([st_error_with summary_failed f], a)
        | (Ok summary, a) =>
            ([], set_last_summary (if truthy summary then summary else no_content) a)
        end
    end.

Definition export_failed : str := py "PDF export failed: ".

Definition summary_card (summary : str) : str :=
  py "<div class='card summary-card'>" ++ replace newline (py "<br/>") summary ++ py "</div>".

(** Lines 258-282: the summary on the page and the export button. *)
Definition summary_section (download_clicked : bool) (a : App) : list ui * App :=
  let summary := last_summary a in
  if truthy summary then
    let shown := st_markdown (summary_card summary) in
    if download_clicked then
      match save_summary_as_pdf summary (world a) with
      | (Return filename, w) =>
          match disk w !! filename with
          | Some f =>
              ([shown; st_download_button f filename (py "application/pdf")],
               with_world w a)
          | None => ([shown; st_error_with export_failed FileNotFoundError], with_world w a)
          end
      | (Raise e, w) => ([shown; st_error_with export_failed (Raised e)], with_world w a)
      end
    else ([shown], a)
  else ([], a).

(** One run of the script, from what the widgets return. *)
Definition script (user_text : str) (summarize_clicked download_clicked : bool) (a : App)
  : list ui * App :=
  let api_key := get_api_key a in
  let a := init_session a in
  let (first, a) :=
    if summarize_clicked then summarize_branch api_key user_text a else ([], a) in
  let (second, a) := summary_section download_clicked a in
  (first ++ second, a).

(** An app with the library, a key and a service that answers [answer]. *)
Definition ready_app (answer : option response) : App :=
  {| world := friendly_world new_years_eve new_year;
     environ := {[ py "GEMINI_API_KEY" := py "k-123" ]};
     genai := true;
     generate_content := fun _ => answer;
     configured := None;
     sent := [];
     session_state := ∅ |}.

(** The same app in an environment without the key. *)
Definition keyless_app : App :=
  {| world := friendly_world new_years_eve new_year;
     environ := ∅;
     genai := true;
     generate_content := fun _ => Some NoText;
     configured := None;
     sent := [];
     session_state := ∅ |}.

(** An app whose import of the Gemini library failed. *)
Definition bare_app : App :=
  {| world := bare_world new_year;
     environ := {[ py "GEMINI_API_KEY" := py "k-123" ]};
     genai := false;
     generate_content := fun _ => None;
     configured := None;
     sent := [];
     session_state := {[ last_summary_key := py "kept" ]} |}.

(** A ready app with the scenario text as its stored summary. *)
Definition summarised_app : App :=
  set_last_summary scenario_text (ready_app None).

(** A world whose ReportLab is there and refuses every paragraph. *)
Definition picky_world (t : datetime) : World :=
  {| A4 := Some A4_sheet;
     clock := fun _ => t;
     reads := 0;
     paragraph_ok := fun _ => false;
     build_ok := fun _ => true;
     disk := ∅ |}.

(** A reading as [datetime.now()] gives them, the year from 1000 to 9999. *)
Definition valid_datetime (t : datetime) : Prop :=
  1000 <= year t < 10 * 1000 /\ 1 <= month t <= 12 /\ 1 <= day t <= 31 /\
  hour t < 24 /\ minute t < 60 /\ second t < 60.

(** Two readings in the same second. *)
Definition same_second (t u : datetime) : Prop :=
  year t = year u /\ month t = month u /\ day t = day u /\
  hour t = hour u /\ minute t = minute u /\ second t = second u.

(** The number that a string of digits writes. *)
Definition digits_value (s : str) : nat :=
  fold_left (fun acc c => 10 * acc + (N.to_nat c - 48)) s 0.

(** A world whose ReportLab accepts everything and whose clock gives the
    readings of [ticks] in turn, then the last of them again. *)
Definition clocked_world (ticks : list datetime) (last : datetime) : World :=
  {| A4 := Some A4_sheet;
     clock := fun n => nth n ticks last;
     reads := 0;
     paragraph_ok := fun _ => true;
     build_ok := fun _ => true;
     disk := ∅ |}.

Definition late_in_second : datetime :=
  {| year := 2025; month := 1; day := 1; hour := 0; minute := 0; second := 0;
     microsecond := 700000%N |}.

(** ** Reading a footer back

    What a reader of the finished document finds in the footer's text: the
    number written after "Word Count:". *)

(** The digits of a string, as a decimal number; [None] when a character
    is no digit. *)
Fixpoint chars_uint (s : str) : option Decimal.uint :=
  match s with
  | [] => Some Decimal.Nil
  | c :: rest =>
      match chars_uint rest with
      | None => None
      | Some d =>
          if N.eqb c 48 then Some (Decimal.D0 d)
          else if N.eqb c 49 then Some (Decimal.D1 d)
          else if N.eqb c 50 then Some (Decimal.D2 d)
          else if N.eqb c 51 then Some (Decimal.D3 d)
          else if N.eqb c 52 then Some (Decimal.D4 d)
          else if N.eqb c 53 then Some (Decimal.D5 d)
          else if N.eqb c 54 then Some (Decimal.D6 d)
          else if N.eqb c 55 then Some (Decimal.D7 d)
          else if N.eqb c 56 then Some (Decimal.D8 d)
          else if N.eqb c 57 then Some (Decimal.D9 d)
          else None
      end
  end.

(** [int(s)] for a string of digits. *)
Definition read_nat (s : str) : option nat :=
  match s with
  | [] => None
  | _ :: _ => option_map Nat.of_uint (chars_uint s)
  end.

(** What follows the first [marker] in [s]. *)
Fixpoint after_marker (marker s : str) : option str :=
  match strip_prefix marker s with
  | Some rest => Some rest
  | None =>
      match s with
      | [] => None
      | _ :: rest => after_marker marker rest
      end
  end.

Fixpoint leading_digits (s : str) : str :=
  match s with
  | [] => []
  | c :: rest => if is_digit c then c :: leading_digits rest else []
  end.

Definition word_count_marker : str := py "<b>Word Count:</b> ".

(** The number that the footer shows as its word count. *)
Definition word_count_field (footer : str) : option nat :=
  match after_marker word_count_marker footer with
  | Some rest => read_nat (leading_digits rest)
  | None => None
  end.

(** A reading later in the minute of [new_year]. *)
Definition later_in_minute : datetime :=
  {| year := 2025; month := 1; day := 1; hour := 0; minute := 0; second := 41;
     microsecond := 5%N |}.

(** The characters of a stamp: letters, digits, space, comma, hyphen and
    colon. *)
Definition stamp_char (c : char) : bool :=
  between 65 122 c || is_digit c || N.eqb c 32 || N.eqb c 44 || N.eqb c 45 || N.eqb c 58.

(** [swaps s o]: [o] is [s] with some of the characters that the rules look
    for replaced, each one where it stood, by characters of the tags or by
    nothing; every other character is copied.  Nothing is written between
    two characters that no rule looks for. *)
Inductive swaps : str -> str -> Prop :=
| swaps_nil : swaps [] []
| swaps_keep (c : char) (s o : str) : swaps s o -> swaps (c :: s) (c :: o)
| swaps_at (c : char) (ins s o : str) :
    rewritten c = true -> Forall (fun c => markup_char c = true) ins ->
    swaps s o -> swaps (c :: s) (ins ++ o).

Definition triple_marked : str := py "***a***".

(** ** The paragraph as its reader sees it *)

(** Modelled from the spec: the markup interpretation of the paragraph
    engine, which is ReportLab's and not under [src/].  Section 4.2 asks
    that the card's paragraph "correctly interpret the emphasis and
    line-break markup produced in 4.1", and section 4.1 names that markup:
    the bold and the italic wrapping, the line-break tag and the named
    entity of the bullet.  So a character stands bold inside a bold
    wrapping and italic inside an italic one, the line-break tag breaks the
    line and the entity shows the bullet glyph.  Of the other markup that
    the source writes, the font tag of the footer changes neither weight
    nor slant, and an ampersand before white space is text.  Everything
    else is refused, as the spec's "composition raises (e.g. encoding issue
    in markup)" has it: a tag or an entity that is not one of these, a
    closing tag that does not close the innermost open one, markup that
    ends inside a tag, an entity or an open wrapping. *)
Inductive glyph : Type :=
| Glyph (bold italic : bool) (c : char)
| LineBreak.

Inductive mode : Type :=
| Outside
| InTag (body : str)
| InEntity (name : str).

(** The reader part of the way through a paragraph: the wrappings that are
    open, innermost first, where it stands, and what it has shown. *)
Record reading : Type := {
  open_tags : list str;
  at_mode : mode;
  shown : list glyph
}.

Definition str_eqb (a b : str) : bool :=
  match strip_prefix a b with
  | Some [] => true
  | _ => false
  end.

Definition inside (name : string) (stack : list str) : bool :=
  existsb (str_eqb (py name)) stack.

Definition show (stack : list str) (c : char) : glyph :=
  Glyph (inside "b" stack) (inside "i" stack) c.

(** The name of a tag: its body up to the first white space. *)
Fixpoint tag_name (body : str) : str :=
  match body with
  | [] => []
  | c :: rest => if isspace c then [] else c :: tag_name rest
  end.

(** What a whole tag does: the wrappings open after it and what it shows. *)
Definition tag_step (stack : list str) (body : str) : option (list str * list glyph) :=
  if str_eqb body (py "br/") then Some (stack, [LineBreak])
  else
    match strip_prefix (py "/") body with
    | Some name =>
        match stack with
        | top :: below => if str_eqb top name then Some (below, []) else None
        | [] => None
        end
    | None =>
        if existsb (str_eqb (tag_name body)) [py "b"; py "i"; py "font"]
        then Some (tag_name body :: stack, [])
        else None
    end.

Definition entity (name : str) : option char :=
  if str_eqb name (py "bull") then Some bullet
  else if str_eqb name (py "amp") then Some 38%N
  else if str_eqb name (py "lt") then Some 60%N
  else if str_eqb name (py "gt") then Some 62%N
  else None.

Definition step (r : reading) (c : char) : option reading :=
  match at_mode r with
  | Outside =>
      if N.eqb c 60 then
        Some {| open_tags := open_tags r; at_mode := InTag []; shown := shown r |}
      else if N.eqb c 38 then
        Some {| open_tags := open_tags r; at_mode := InEntity []; shown := shown r |}
      else
        Some {| open_tags := open_tags r; at_mode := Outside;
                shown := shown r ++ [show (open_tags r) c] |}
  | InTag body =>
      if N.eqb c 62 then
        match tag_step (open_tags r) body with
        | Some (stack, gs) =>
            Some {| open_tags := stack; at_mode := Outside; shown := shown r ++ gs |}
        | None => None
        end
      else if N.eqb c 60 then None
      else
        Some {| open_tags := open_tags r; at_mode := InTag (body ++ [c]);
                shown := shown r |}
  | InEntity name =>
      if N.eqb c 59 then
        match entity name with
        | Some g =>
            Some {| open_tags := open_tags r; at_mode := Outside;
                    shown := shown r ++ [show (open_tags r) g] |}
        | None => None
        end
      else if isspace c then
        Some {| open_tags := open_tags r; at_mode := Outside;
                shown := shown r ++ map (show (open_tags r)) (38%N :: name ++ [c]) |}
      else if N.eqb c 60 || N.eqb c 38 then None
      else
        Some {| open_tags := open_tags r; at_mode := InEntity (name ++ [c]);
                shown := shown r |}
  end.

Fixpoint run (r : reading) (markup : str) : option reading :=
  match markup with
  | [] => Some r
  | c :: rest =>
      match step r c with
      | Some r' => run r' rest
      | None => None
      end
  end.

Definition blank_page : reading :=
  {| open_tags := []; at_mode := Outside; shown := [] |}.

Definition finished (r : reading) : option (list glyph) :=
  match open_tags r, at_mode r with
  | [], Outside => Some (shown r)
  | _, _ => None
  end.

Definition interpret (markup : str) : option (list glyph) :=
  match run blank_page markup with
  | Some r => finished r
  | None => None
  end.

Definition accepted (markup : str) : bool :=
  match interpret markup with
  | Some _ => true
  | None => false
  end.

(** A character that the reader takes as text wherever it stands outside a
    tag: neither [<] nor [&]. *)
Definition plain_char (c : char) : Prop := c <> 60%N /\ c <> 38%N.

(** Modelled from the spec: a runtime in which the document-composition
    capability is present; it takes a paragraph when it can interpret its
    markup, and composes every story whose paragraphs it has taken.  The
    clock, the readings taken so far and the files on disk are any. *)
Definition composing_world (now : nat -> datetime) (taken : nat)
    (files : gmap str pdf_file) : World :=
  {| A4 := Some A4_sheet;
     clock := now;
     reads := taken;
     paragraph_ok := accepted;
     build_ok := fun _ => true;
     disk := files |}.

(** * Properties *)

#[local] Arguments N.eqb : simpl never.

Example strftime_file_stamp :
  strftime (py "%Y%m%d_%H%M%S")
    {| year := 2024; month := 12; day := 31; hour := 23; minute := 59;
       second := 59; microsecond := 0%N |} = py "20241231_235959".
Proof. vm_compute. reflexivity. Qed.

Example strftime_footer_stamp :
  strftime (py "%B %d, %Y - %I:%M %p")
    {| year := 2025; month := 1; day := 1; hour := 0; minute := 0;
       second := 0; microsecond := 0%N |} = py "January 01, 2025 - 12:00 AM".
Proof. vm_compute. reflexivity. Qed.

Example split_example :
  split (py "Hello   world" ++ [newline] ++ py "foo") = [py "Hello"; py "world"; py "foo"].
Proof. vm_compute. reflexivity. Qed.

Example convert_scenario :
  convert_markdown_to_html
    (py "**Key Point**: growth *accelerated* in Q2." ++ [newline; bullet] ++ py " Revenue up")
  = py "<b>Key Point</b>: growth <i>accelerated</i> in Q2.<br/>&bull; Revenue up".
Proof. vm_compute. reflexivity. Qed.

Example convert_crossed :
  convert_markdown_to_html (py "**a*b**c*") = py "<b>a<i>b</b>c</i>".
Proof. vm_compute. reflexivity. Qed.

Example convert_span_over_break :
  convert_markdown_to_html (py "**a" ++ [newline] ++ py "b**")
  = py "<i></i>a<br/>b<i></i>".
Proof. vm_compute. reflexivity. Qed.

Example second_pass_differs :
  let t := py "*a" ++ [newline] ++ py "b*" in
  convert_markdown_to_html t = py "*a<br/>b*" /\
  convert_markdown_to_html (convert_markdown_to_html t) = py "<i>a<br/>b</i>".
Proof. vm_compute. split; reflexivity. Qed.

(** ** The scan reaches the end of every text *)

Lemma strip_prefix_Some d s r : strip_prefix d s = Some r <-> s = d ++ r.
Proof.
  revert s; induction d as [|a d IH]; intros s; simpl.
  - split; [intros [= ->]; reflexivity | intros ->; reflexivity].
  - destruct s as [|b s]; [split; discriminate|].
    destruct (N.eqb_spec a b) as [->|Hne].
    + rewrite IH. split; [intros ->; reflexivity | intros [= ->]; reflexivity].
    + split; [discriminate | intros [= -> _]; congruence].
Qed.

Lemma strip_prefix_app d r : strip_prefix d (d ++ r) = Some r.
Proof. apply strip_prefix_Some. reflexivity. Qed.

Lemma lazy_until_Some d s x r :
  lazy_until d s = Some (x, r) -> s = x ++ d ++ r /\ newline ∉ x.
Proof.
  revert x r; induction s as [|c s IH]; intros x r; simpl.
  - destruct (strip_prefix d []) as [rest|] eqn:E; [|discriminate].
    intros [= <- <-]. apply strip_prefix_Some in E. split; [exact E | apply not_elem_of_nil].
  - destruct (strip_prefix d (c :: s)) as [rest|] eqn:E.
    + intros [= <- <-]. apply strip_prefix_Some in E. split; [exact E | apply not_elem_of_nil].
    + destruct (N.eqb_spec c newline) as [|Hc]; [discriminate|].
      destruct (lazy_until d s) as [[x' r']|]; [|discriminate].
      intros [= <- <-]. destruct (IH x' r' eq_refl) as [-> Hx].
      split; [reflexivity|]. rewrite not_elem_of_cons. split; [congruence | exact Hx].
Qed.

Lemma match_at_Some d text x after :
  match_at d text = Some (x, after) ->
  text = d ++ x ++ d ++ after /\ newline ∉ x.
Proof.
  unfold match_at. destruct (strip_prefix d text) as [body|] eqn:E; [|discriminate].
  intros H. apply strip_prefix_Some in E. apply lazy_until_Some in H as [-> Hx].
  split; [exact E | exact Hx].
Qed.

Lemma match_at_shorter d text x after :
  d <> [] -> match_at d text = Some (x, after) -> length after < length text.
Proof.
  intros Hd H. apply match_at_Some in H as [-> _].
  rewrite !length_app. destruct d; [congruence | simpl; lia].
Qed.

Section Scan.
Variables d open close : str.
Hypothesis d_nonempty : d <> [].

Lemma sub_loop_enough n m text :
  length text < n -> length text < m ->
  sub_loop d open close n text = sub_loop d open close m text.
Proof.
  revert m text; induction n as [|n IH]; intros m text Hn Hm; [lia|].
  destruct m as [|m]; [lia|]. simpl.
  destruct text as [|c rest]; [reflexivity|].
  destruct (match_at d (c :: rest)) as [[x after]|] eqn:E.
  - pose proof (match_at_shorter _ _ _ _ d_nonempty E) as Hlt.
    rewrite (IH m after); [reflexivity | lia | lia].
  - simpl in Hn, Hm. rewrite (IH m rest); [reflexivity | lia | lia].
Qed.

Lemma sub_loop_total n text :
  length text < n -> is_Some (sub_loop d open close n text).
Proof.
  revert text; induction n as [|n IH]; intros text Hn; [lia|]. simpl.
  destruct text as [|c rest]; [eexists; reflexivity|].
  destruct (match_at d (c :: rest)) as [[x after]|] eqn:E.
  - pose proof (match_at_shorter _ _ _ _ d_nonempty E) as Hlt.
    destruct (IH after) as [o ->]; [lia|]. eexists; reflexivity.
  - simpl in Hn. destruct (IH rest) as [o ->]; [lia|]. eexists; reflexivity.
Qed.

Lemma sub_loop_re_sub n text :
  length text < n -> sub_loop d open close n text = Some (re_sub d open close text).
Proof.
  intros Hn. unfold re_sub, re_sub_run.
  rewrite (sub_loop_enough n (S (length text)) text Hn); [|lia].
  destruct (sub_loop_total (S (length text)) text) as [o ->]; [lia|]. reflexivity.
Qed.

Lemma re_sub_run_Some text :
  re_sub_run d open close text = Some (re_sub d open close text).
Proof. apply sub_loop_re_sub. lia. Qed.

Lemma re_sub_nil : re_sub d open close [] = [].
Proof. reflexivity. Qed.

Lemma re_sub_hit text x after :
  text <> [] -> match_at d text = Some (x, after) ->
  re_sub d open close text = open ++ x ++ close ++ re_sub d open close after.
Proof.
  intros Hne E. pose proof (match_at_shorter _ _ _ _ d_nonempty E) as Hlt.
  apply (inj Some). rewrite <- re_sub_run_Some. unfold re_sub_run. simpl.
  destruct text as [|c rest]; [congruence|]. rewrite E.
  rewrite (sub_loop_re_sub _ after); [|simpl in *; lia].
  simpl. rewrite <- !app_assoc. reflexivity.
Qed.

Lemma re_sub_miss c rest :
  match_at d (c :: rest) = None ->
  re_sub d open close (c :: rest) = c :: re_sub d open close rest.
Proof.
  intros E. apply (inj Some). rewrite <- re_sub_run_Some. unfold re_sub_run.
  change (sub_loop d open close (S (length (c :: rest))) (c :: rest))
    with (match match_at d (c :: rest) with
          | Some (x, after) =>
              option_map (app (open ++ x ++ close))
                (sub_loop d open close (length (c :: rest)) after)
          | None => option_map (cons c) (sub_loop d open close (length (c :: rest)) rest)
          end).
  rewrite E. rewrite (sub_loop_re_sub _ rest); [|simpl; lia]. reflexivity.
Qed.

(** Induction along the scan. *)
Lemma scan_ind (P : str -> Prop) :
  P [] ->
  (forall c rest, match_at d (c :: rest) = None -> P rest -> P (c :: rest)) ->
  (forall text x after,
      text <> [] -> match_at d text = Some (x, after) -> P after -> P text) ->
  forall text, P text.
Proof.
  intros Hnil Hmiss Hhit text.
  remember (length text) as n eqn:Hn. revert text Hn.
  induction n as [n IH] using lt_wf_ind. intros text ->.
  destruct text as [|c rest]; [exact Hnil|].
  destruct (match_at d (c :: rest)) as [[x after]|] eqn:E.
  - apply (Hhit _ x after); [discriminate | exact E |].
    apply (IH (length after)); [|reflexivity].
    exact (match_at_shorter _ _ _ _ d_nonempty E).
  - apply Hmiss; [exact E|]. apply (IH (length rest)); [simpl; lia | reflexivity].
Qed.
End Scan.

(** ** What one attempt of the pattern matches *)

Lemma lazy_until_eq d s :
  lazy_until d s =
  match strip_prefix d s with
  | Some rest => Some ([], rest)
  | None =>
      match s with
      | [] => None
      | c :: s' =>
          if N.eqb c newline then None
          else match lazy_until d s' with
               | Some (x, rest) => Some (c :: x, rest)
               | None => None
               end
      end
  end.
Proof. destruct s; reflexivity. Qed.

Lemma strip_prefix_None d s :
  strip_prefix d s = None <-> forall r, s <> d ++ r.
Proof.
  split.
  - intros H r Hs. apply strip_prefix_Some in Hs. congruence.
  - intros H. destruct (strip_prefix d s) as [r|] eqn:E; [|reflexivity].
    apply strip_prefix_Some in E. destruct (H r E).
Qed.

Lemma lazy_until_spec d s x r :
  lazy_until d s = Some (x, r) <-> shortest_span d x s r /\ newline ∉ x.
Proof.
  split.
  - revert x r; induction s as [|c s IH]; intros x r; rewrite lazy_until_eq.
    + destruct (strip_prefix d []) as [rest|] eqn:E; [|discriminate].
      intros [= <- <-]. apply strip_prefix_Some in E.
      repeat split; [exact E | simpl; lia | apply not_elem_of_nil].
    + destruct (strip_prefix d (c :: s)) as [rest|] eqn:E.
      * intros [= <- <-]. apply strip_prefix_Some in E.
        repeat split; [exact E | simpl; lia | apply not_elem_of_nil].
      * destruct (N.eqb_spec c newline) as [|Hc]; [discriminate|].
        destruct (lazy_until d s) as [[x0 r0]|]; [|discriminate].
        intros [= <- <-]. destruct (IH x0 r0 eq_refl) as [[-> Hmin] Hx].
        repeat split.
        -- intros [|c' x'] r' Hs.
           ++ apply (proj2 (strip_prefix_Some d _ r')) in Hs. congruence.
           ++ injection Hs as _ Hs. simpl. apply le_n_S. exact (Hmin _ _ Hs).
        -- rewrite not_elem_of_cons. split; [congruence | exact Hx].
  - revert s; induction x as [|c x IH]; intros s [[Hs Hmin] Hx]; rewrite lazy_until_eq.
    + simpl in Hs. apply strip_prefix_Some in Hs. rewrite Hs. reflexivity.
    + destruct (strip_prefix d s) as [rest|] eqn:E.
      * apply strip_prefix_Some in E. specialize (Hmin [] rest E). simpl in Hmin. lia.
      * subst s. simpl. apply not_elem_of_cons in Hx as [Hc Hx].
        destruct (N.eqb_spec c newline) as [|_]; [congruence|].
        rewrite (IH (x ++ d ++ r)); [reflexivity|].
        repeat split; [|exact Hx].
        intros x' r' Hs. specialize (Hmin (c :: x') r'). simpl in Hmin.
        rewrite Hs in Hmin. specialize (Hmin eq_refl). lia.
Qed.

Lemma match_at_spec d text x after :
  match_at d text = Some (x, after) <->
  exists body, text = d ++ body /\ shortest_span d x body after /\ newline ∉ x.
Proof.
  unfold match_at. split.
  - destruct (strip_prefix d text) as [body|] eqn:E; [|discriminate].
    intros H. apply strip_prefix_Some in E. apply lazy_until_spec in H as [H1 H2].
    exists body. auto.
  - intros (body & -> & H1 & H2). rewrite strip_prefix_app.
    apply lazy_until_spec. auto.
Qed.

(** ** Occurrences of a character *)

Lemma count_app a s t : count a (s ++ t) = count a s + count a t.
Proof. induction s as [|c s IH]; simpl; [reflexivity | rewrite IH; lia]. Qed.

Lemma count_zero a s : count a s = 0 <-> a ∉ s.
Proof.
  induction s as [|c s IH]; simpl.
  - split; [intros _; apply not_elem_of_nil | reflexivity].
  - rewrite not_elem_of_cons, <- IH.
    destruct (N.eqb_spec c a) as [->|Hne]; simpl.
    + split; [discriminate | intros [H _]; congruence].
    + split; [intros H; split; [congruence | exact H] | intros [_ H]; exact H].
Qed.

(** A character that a given text does not hold: by counting. *)
Ltac absent := apply count_zero; vm_compute; reflexivity.

Lemma strip_prefix_head a d' c s :
  c <> a -> strip_prefix (a :: d') (c :: s) = None.
Proof.
  intros Hc. simpl. destruct (N.eqb_spec a c); [congruence | reflexivity].
Qed.

Lemma match_at_head a d' c s : c <> a -> match_at (a :: d') (c :: s) = None.
Proof. intros Hc. unfold match_at. rewrite strip_prefix_head by exact Hc. reflexivity. Qed.

(** A match needs its delimiter twice. *)
Lemma match_at_count a d' text x after :
  match_at (a :: d') text = Some (x, after) -> 2 <= count a text.
Proof.
  intros H. apply match_at_Some in H as [-> _].
  simpl. rewrite N.eqb_refl, !count_app. simpl. rewrite N.eqb_refl. lia.
Qed.

(** ** Texts the passes leave alone *)

Lemma delim_nonempty (a : char) (d' : str) : a :: d' <> [].
Proof. discriminate. Qed.

Lemma re_sub_few a d' open close text :
  count a text <= 1 -> re_sub (a :: d') open close text = text.
Proof.
  induction text as [|c rest IH]; intros Hc; [reflexivity|].
  destruct (match_at (a :: d') (c :: rest)) as [[x after]|] eqn:E.
  - apply match_at_count in E. lia.
  - rewrite re_sub_miss by (exact E || discriminate).
    rewrite IH; [reflexivity|]. simpl in Hc. lia.
Qed.

Lemma re_sub_absent a d' open close text :
  a ∉ text -> re_sub (a :: d') open close text = text.
Proof. intros H. apply re_sub_few. apply count_zero in H. lia. Qed.

Lemma re_sub_elem d open close text c :
  d <> [] ->
  c ∈ re_sub d open close text -> c ∈ text \/ c ∈ open \/ c ∈ close.
Proof.
  intros Hd. revert text.
  apply (scan_ind d Hd (fun text =>
    c ∈ re_sub d open close text -> c ∈ text \/ c ∈ open \/ c ∈ close)).
  - rewrite re_sub_nil. auto.
  - intros c0 rest E IH. rewrite re_sub_miss by assumption.
    rewrite !elem_of_cons. intros [->|H]; [auto|]. destruct (IH H) as [?|[?|?]]; auto.
  - intros text x after Hne E IH. rewrite (re_sub_hit d open close Hd text x after Hne E).
    apply match_at_Some in E as [-> _].
    rewrite !elem_of_app. intros [?|[?|[?|H]]]; auto.
    destruct (IH H) as [?|[?|?]]; auto.
Qed.

Lemma replace_absent old new s : old ∉ s -> replace old new s = s.
Proof.
  induction s as [|c s IH]; [reflexivity|].
  rewrite not_elem_of_cons. intros [Hc Hs]. simpl.
  destruct (N.eqb_spec c old); [congruence|]. rewrite IH by exact Hs. reflexivity.
Qed.

Lemma replace_app old new s t :
  replace old new (s ++ t) = replace old new s ++ replace old new t.
Proof.
  induction s as [|c s IH]; [reflexivity|]. simpl.
  destruct (N.eqb c old); rewrite IH; [rewrite app_assoc|]; reflexivity.
Qed.

Lemma elem_of_replace old new s c :
  c ∈ replace old new s -> (c ∈ s /\ c <> old) \/ c ∈ new.
Proof.
  induction s as [|c0 s IH]; simpl.
  - intros H. apply elem_of_nil in H. destruct H.
  - destruct (N.eqb_spec c0 old) as [->|Hne].
    + rewrite elem_of_app. intros [?|H]; [auto|].
      destruct (IH H) as [[? ?]|?]; [left; split; [apply elem_of_cons; auto | auto] | auto].
    + rewrite elem_of_cons. intros [->|H].
      * left. split; [apply elem_of_cons; auto | exact Hne].
      * destruct (IH H) as [[? ?]|?]; [left; split; [apply elem_of_cons; auto | auto] | auto].
Qed.

Lemma count_replace a old new s :
  a <> old -> a ∉ new -> count a (replace old new s) = count a s.
Proof.
  intros Ha Hnew. apply count_zero in Hnew.
  induction s as [|c s IH]; [reflexivity|]. simpl.
  destruct (N.eqb_spec c old) as [->|Hne].
  - rewrite count_app, Hnew, IH. destruct (N.eqb_spec old a); [congruence | reflexivity].
  - simpl. rewrite IH. reflexivity.
Qed.

Lemma tags_clean tag c : tag ∈ tags -> c ∈ tag -> rewritten c = false.
Proof.
  intros Ht Hc. unfold tags in Ht.
  repeat (apply elem_of_cons in Ht as [->|Ht]);
    try (apply elem_of_nil in Ht; destruct Ht);
    vm_compute in Hc;
    repeat (apply elem_of_cons in Hc as [->|Hc]; [reflexivity|]);
    apply elem_of_nil in Hc; destruct Hc.
Qed.

Lemma clean_not (c a : char) : rewritten c = false -> rewritten a = true -> c <> a.
Proof. intros H1 H2 ->. congruence. Qed.

(** ** The renderer, step by step *)

Lemma bind_global {B : Type} (k : option pagesize -> M B) w :
  (global_A4 ≫= k) w = k (A4 w) w.
Proof. reflexivity. Qed.

Lemma bind_now {B : Type} (k : datetime -> M B) w :
  (datetime_now ≫= k) w = k (clock w (reads w)) (tick w).
Proof. reflexivity. Qed.

Lemma bind_paragraph {B : Type} text st (k : flowable -> M B) w :
  (Paragraph text st ≫= k) w
  = if paragraph_ok w text then k (Para text st) w else (Raise ReportLabError, w).
Proof. unfold mbind, M_bind, Paragraph. destruct (paragraph_ok w text); reflexivity. Qed.

Lemma bind_build {B : Type} doc content (k : unit -> M B) w :
  (build doc content ≫= k) w
  = if build_ok w content
    then k tt (write_file (doc_filename doc)
                 {| pdf_template := doc; pdf_story := content |} w)
    else (Raise ReportLabError, w).
Proof. unfold mbind, M_bind, build. destruct (build_ok w content); reflexivity. Qed.

(** The call, as a chain of tests on the world. *)
Lemma save_unfold text w :
  save_summary_as_pdf text w =
  match A4 w with
  | None => (Raise (RuntimeError unavailable_message), w)
  | Some page =>
      if paragraph_ok w (convert_markdown_to_html text) then
        if paragraph_ok w title_text then
          if paragraph_ok w subtitle_text then
            if paragraph_ok w (footer_text (second_reading w) text) then
              if build_ok w (story (second_reading w) text) then
                (Return (filename_of (first_reading w)), after_save w page text)
              else (Raise ReportLabError, tick (tick w))
            else (Raise ReportLabError, tick (tick w))
          else (Raise ReportLabError, tick w)
        else (Raise ReportLabError, tick w)
      else (Raise ReportLabError, tick w)
  end.
Proof.
  unfold save_summary_as_pdf.
  rewrite bind_global.
  destruct (A4 w) as [page|]; [|reflexivity].
  rewrite bind_now, bind_paragraph.
  change (paragraph_ok (tick w)) with (paragraph_ok w).
  destruct (paragraph_ok w (convert_markdown_to_html text)); [|reflexivity].
  rewrite bind_paragraph. change (paragraph_ok (tick w)) with (paragraph_ok w).
  destruct (paragraph_ok w title_text); [|reflexivity].
  rewrite bind_paragraph. change (paragraph_ok (tick w)) with (paragraph_ok w).
  destruct (paragraph_ok w subtitle_text); [|reflexivity].
  rewrite bind_now, bind_paragraph.
  change (paragraph_ok (tick (tick w))) with (paragraph_ok w).
  change (clock (tick w) (reads (tick w))) with (second_reading w).
  destruct (paragraph_ok w (footer_text (second_reading w) text)); [|reflexivity].
  rewrite bind_build. change (build_ok (tick (tick w))) with (build_ok w).
  change (clock w (reads w)) with (first_reading w).
  destruct (build_ok w _) eqn:Hb; reflexivity.
Qed.

Lemma save_unavailable w text :
  A4 w = None ->
  save_summary_as_pdf text w = (Raise (RuntimeError unavailable_message), w).
Proof. intros H. rewrite save_unfold, H. reflexivity. Qed.

Lemma save_ok w page text :
  A4 w = Some page ->
  Forall (fun p => paragraph_ok w p = true) (paragraphs (second_reading w) text) ->
  build_ok w (story (second_reading w) text) = true ->
  save_summary_as_pdf text w
  = (Return (filename_of (first_reading w)), after_save w page text).
Proof.
  intros HA Hp Hb. unfold paragraphs in Hp.
  apply Forall_cons in Hp as [H1 Hp]. apply Forall_cons in Hp as [H2 Hp].
  apply Forall_cons in Hp as [H3 Hp]. apply Forall_cons in Hp as [H4 _].
  rewrite save_unfold, HA, H1, H2, H3, H4, Hb. reflexivity.
Qed.

Lemma save_returns w text fname w' :
  save_summary_as_pdf text w = (Return fname, w') ->
  exists page,
    A4 w = Some page /\
    Forall (fun p => paragraph_ok w p = true) (paragraphs (second_reading w) text) /\
    build_ok w (story (second_reading w) text) = true /\
    fname = filename_of (first_reading w) /\
    w' = after_save w page text.
Proof.
  rewrite save_unfold. destruct (A4 w) as [page|]; [|discriminate].
  destruct (paragraph_ok w (convert_markdown_to_html text)) eqn:H1; [|discriminate].
  destruct (paragraph_ok w title_text) eqn:H2; [|discriminate].
  destruct (paragraph_ok w subtitle_text) eqn:H3; [|discriminate].
  destruct (paragraph_ok w (footer_text (second_reading w) text)) eqn:H4; [|discriminate].
  destruct (build_ok w (story (second_reading w) text)) eqn:Hb; [|discriminate].
  intros [= <- <-]. exists page.
  split; [reflexivity|]. split; [|auto].
  unfold paragraphs. repeat constructor; assumption.
Qed.

Lemma after_save_lookup w page text :
  disk (after_save w page text) !! filename_of (first_reading w)
  = Some {| pdf_template := template page (filename_of (first_reading w));
            pdf_story := story (second_reading w) text |}.
Proof. unfold after_save, write_file. cbn [disk]. apply lookup_insert_eq. Qed.

Lemma after_save_reads w page text : reads (after_save w page text) = S (S (reads w)).
Proof. reflexivity. Qed.

Lemma story_last t text :
  last (story t text) = Some (Para (footer_text t text) footer_style).
Proof. reflexivity. Qed.

(** ** Words *)

Lemma split_loop_length cur s :
  length (split_loop cur s)
  = token_starts (match cur with Some _ => false | None => true end) s
    + match cur with Some _ => 1 | None => 0 end.
Proof.
  revert cur; induction s as [|c rest IH]; intros cur.
  - destruct cur; reflexivity.
  - simpl. destruct (isspace c).
    + destruct cur; simpl; rewrite IH; simpl; lia.
    + rewrite IH. destruct cur; simpl; lia.
Qed.

Lemma split_length text : length (split text) = whitespace_delimited_tokens text.
Proof. unfold split, whitespace_delimited_tokens. rewrite split_loop_length. lia. Qed.

(** ** Claims about the renderer *)

(** C6: when ReportLab could not be imported ([A4] is [None]), the call
    raises the [RuntimeError] that says so before it reads the clock or
    touches the disk: the world is the one it started in, no file is made. *)
Theorem render_unavailable (w : World) (text : str) :
  A4 w = None ->
  save_summary_as_pdf text w = (Raise (RuntimeError unavailable_message), w) /\
  disk (snd (save_summary_as_pdf text w)) = disk w.
Proof.
  intros H. rewrite (save_unavailable w text H). split; reflexivity.
Qed.

Lemma render_unavailable_witness :
  A4 (bare_world new_year) = None /\
  save_summary_as_pdf scenario_text (bare_world new_year)
  = (Raise (RuntimeError unavailable_message), bare_world new_year) /\
  disk (snd (save_summary_as_pdf scenario_text (bare_world new_year)))
  = disk (bare_world new_year).
Proof.
  split; [reflexivity|].
  apply (render_unavailable (bare_world new_year) scenario_text). reflexivity.
Defined.

Lemma generated_on_same_minute t u : same_minute t u -> generated_on t = generated_on u.
Proof.
  destruct t, u. unfold same_minute. cbn [year month day hour minute].
  intros (-> & -> & -> & -> & ->). reflexivity.
Qed.

(** C2 as stated fails: the scenario text has nine words, and the footer of
    the file that the call leaves says 9, not 7. *)
Lemma scenario_word_count_counterexample :
  let w := friendly_world new_years_eve new_year in
  save_summary_as_pdf scenario_text w
  = (Return (py "AI_Summary_20241231_235959.pdf"), after_save w A4_sheet scenario_text) /\
  last (story (second_reading w) scenario_text)
  = Some (Para (footer_with (py "January 01, 2025 - 12:00 AM") (py "9")) footer_style) /\
  length (split scenario_text) = 9 /\
  footer_text (second_reading w) scenario_text
  <> footer_with (generated_on (second_reading w)) (py "7") /\
  word_count_field (footer_text (second_reading w) scenario_text) = Some 9 /\
  word_count_field (footer_text (second_reading w) scenario_text) <> Some 7.
Proof.
  intros w. split; [vm_compute; reflexivity|].
  split; [vm_compute; reflexivity|].
  split; [vm_compute; reflexivity|].
  split; [vm_compute; discriminate|].
  split; [vm_compute; reflexivity | vm_compute; discriminate].
Qed.

(** ** What a timestamp gives away *)

Lemma uint_chars_digits d c : c ∈ uint_chars d -> is_digit c = true.
Proof.
  induction d as [|d IH|d IH|d IH|d IH|d IH|d IH|d IH|d IH|d IH|d IH]; simpl;
    [intros H; apply elem_of_nil in H; destruct H | ..];
    rewrite elem_of_cons; (intros [->|H]; [reflexivity | exact (IH H)]).
Qed.

Lemma repr_nat_digits n c : c ∈ repr_nat n -> is_digit c = true.
Proof. apply uint_chars_digits. Qed.

Lemma zero_padded_digits w n c : c ∈ zero_padded w n -> is_digit c = true.
Proof.
  unfold zero_padded. rewrite elem_of_app, elem_of_replicate.
  intros [[-> _]|H]; [reflexivity | exact (repr_nat_digits n c H)].
Qed.

Lemma month_name_no_space m : 32%N ∉ month_name m.
Proof.
  do 13 (destruct m as [|m]; [absent|]).
  apply not_elem_of_nil.
Qed.

Lemma generated_on_eq t :
  exists rest,
    generated_on t
    = month_name (month t) ++ 32%N :: zero_padded 2 (day t) ++ 44%N :: 32%N ::
      repr_nat (year t) ++ 32%N :: rest.
Proof. eexists. reflexivity. Qed.

Lemma filename_of_year t :
  exists rest, filename_of t = py "AI_Summary_" ++ repr_nat (year t) ++ rest.
Proof.
  eexists. unfold filename_of.
  change (strftime (py "%Y%m%d_%H%M%S") t)
    with (repr_nat (year t) ++ strftime (py "%m%d_%H%M%S") t).
  rewrite <- app_assoc. reflexivity.
Qed.

(** The year that a footer stamp shows is the year of its reading. *)
Lemma generated_on_year t name d y rest :
  32%N ∉ name -> 44%N ∉ d -> 32%N ∉ y ->
  generated_on t = name ++ 32%N :: d ++ 44%N :: 32%N :: y ++ 32%N :: rest ->
  repr_nat (year t) = y.
Proof.
  intros Hname Hd Hy. destruct (generated_on_eq t) as [rest0 ->]. intros H.
  apply not_elem_of_app_cons_inv_l in H as (_ & _ & H);
    [|exact Hname | apply month_name_no_space].
  apply not_elem_of_app_cons_inv_l in H as (_ & _ & H); [|exact Hd|].
  2:{ intros Hin. apply zero_padded_digits in Hin. discriminate. }
  injection H as H.
  apply not_elem_of_app_cons_inv_l in H as (H & _ & _); [exact H | exact Hy|].
  intros Hin. apply repr_nat_digits in Hin. discriminate.
Qed.

Lemma footer_with_inj s1 s2 words : footer_with s1 words = footer_with s2 words -> s1 = s2.
Proof.
  unfold footer_with. intros H. apply app_inv_head in H.
  apply app_inv_tail in H. exact H.
Qed.

(** C1 as stated fails: with the clock at 23:59:59 on the first reading and
    past midnight on the second, the call takes two readings, not one, the
    file is named for 31 December 2024 and its footer is stamped 1 January
    2025: the footer is not the one that the file name's reading gives, nor
    the one of any reading that gives this file name. *)
Lemma render_clock_counterexample :
  let w := friendly_world new_years_eve new_year in
  let w' := after_save w A4_sheet scenario_text in
  let fname := py "AI_Summary_20241231_235959.pdf" in
  save_summary_as_pdf scenario_text w = (Return fname, w') /\
  reads w' = 2 + reads w /\
  reads w' <> 1 + reads w /\
  (exists file,
      disk w' !! fname = Some file /\
      last (pdf_story file)
      = Some (Para (footer_with (py "January 01, 2025 - 12:00 AM") (py "9")) footer_style) /\
      last (pdf_story file)
      <> Some (Para (footer_text (first_reading w) scenario_text) footer_style) /\
      (forall t,
          fname = filename_of t ->
          last (pdf_story file)
          <> Some (Para (footer_text t scenario_text) footer_style))).
Proof.
  intros w w' fname.
  split; [vm_compute; reflexivity|].
  split; [reflexivity|]. split; [discriminate|].
  eexists. split; [exact (after_save_lookup w A4_sheet scenario_text)|].
  split; [vm_compute; reflexivity|].
  split; [vm_compute; discriminate|].
  intros t Hname Hfoot. cbn [pdf_story] in Hfoot. rewrite story_last in Hfoot.
  assert (Hf : footer_text (second_reading w) scenario_text = footer_text t scenario_text)
    by congruence.
  unfold footer_text in Hf. apply footer_with_inj in Hf. symmetry in Hf.
  change (generated_on (second_reading w))
    with (py "January" ++ 32%N :: py "01" ++ 44%N :: 32%N :: py "2025" ++
          32%N :: py "- 12:00 AM") in Hf.
  apply generated_on_year in Hf; try absent.
  destruct (filename_of_year t) as [rest Hrest].
  rewrite Hrest, Hf in Hname. vm_compute in Hname. discriminate.
Qed.

(** ** Claims about the converter *)

(** C5: the converter returns a string for every text: neither scan runs out
    before the end of its text, whatever the asterisks in it, so the run of
    the four statements ends with the converter's value; the empty text and
    crossed markers are no exception. *)
Theorem convert_total (text : str) :
  convert_run text = Some (convert_markdown_to_html text) /\
  convert_run [] = Some [] /\
  convert_run (py "**a*b**c*") = Some (py "<b>a<i>b</b>c</i>").
Proof.
  split; [|split; vm_compute; reflexivity].
  unfold convert_run, convert_markdown_to_html, bold_pass, italic_pass.
  rewrite !re_sub_run_Some by discriminate. reflexivity.
Qed.

(** C8: a text with no asterisk, no line break and no bullet comes out as it
    went in. *)
Theorem convert_plain (text : str) :
  asterisk ∉ text -> newline ∉ text -> bullet ∉ text ->
  convert_markdown_to_html text = text.
Proof.
  intros Ha Hn Hb. unfold convert_markdown_to_html, bold_pass, italic_pass,
    break_pass, bullet_pass, bold_delim, italic_delim.
  change (py "**") with [asterisk; asterisk]. change (py "*") with [asterisk].
  rewrite (re_sub_absent asterisk [asterisk] b_open b_close text Ha).
  rewrite (re_sub_absent asterisk [] i_open i_close text Ha).
  rewrite (replace_absent newline) by exact Hn.
  apply replace_absent. exact Hb.
Qed.

Lemma convert_plain_witness :
  (asterisk ∉ py "5 < 6 & 7 > 2") /\ (newline ∉ py "5 < 6 & 7 > 2") /\
  (bullet ∉ py "5 < 6 & 7 > 2") /\
  convert_markdown_to_html (py "5 < 6 & 7 > 2") = py "5 < 6 & 7 > 2".
Proof.
  assert (Ha : asterisk ∉ py "5 < 6 & 7 > 2")
    by absent.
  assert (Hn : newline ∉ py "5 < 6 & 7 > 2")
    by absent.
  assert (Hb : bullet ∉ py "5 < 6 & 7 > 2")
    by absent.
  split; [exact Ha|]. split; [exact Hn|]. split; [exact Hb|].
  exact (convert_plain (py "5 < 6 & 7 > 2") Ha Hn Hb).
Defined.

(** ** A span that the bold rule takes *)

Lemma lazy_until_app a d' x r :
  a ∉ x -> newline ∉ x ->
  lazy_until (a :: d') (x ++ (a :: d') ++ r) = Some (x, r).
Proof.
  induction x as [|c x IH]; intros Ha Hn; rewrite lazy_until_eq.
  - change ([] ++ (a :: d') ++ r) with ((a :: d') ++ r).
    rewrite strip_prefix_app. reflexivity.
  - apply not_elem_of_cons in Ha as [Hca Ha]. apply not_elem_of_cons in Hn as [Hcn Hn].
    change ((c :: x) ++ (a :: d') ++ r) with (c :: (x ++ (a :: d') ++ r)).
    rewrite strip_prefix_head by congruence.
    destruct (N.eqb_spec c newline); [congruence|].
    rewrite IH by assumption. reflexivity.
Qed.

Lemma match_at_app a d' x r :
  a ∉ x -> newline ∉ x ->
  match_at (a :: d') ((a :: d') ++ x ++ (a :: d') ++ r) = Some (x, r).
Proof.
  intros Ha Hn. unfold match_at. rewrite strip_prefix_app.
  apply lazy_until_app; assumption.
Qed.

Lemma bold_pass_span x :
  asterisk ∉ x -> newline ∉ x ->
  bold_pass (bold_delim ++ x ++ bold_delim) = b_open ++ x ++ b_close.
Proof.
  intros Ha Hn. unfold bold_pass.
  rewrite (re_sub_hit bold_delim b_open b_close (delim_nonempty _ _)
             (bold_delim ++ x ++ bold_delim) x []).
  - rewrite re_sub_nil, app_nil_r. reflexivity.
  - discriminate.
  - rewrite <- (app_nil_r bold_delim) at 3.
    apply (match_at_app asterisk [asterisk]); assumption.
Qed.

Lemma contains_eq needle hay :
  contains needle hay =
  match strip_prefix needle hay with
  | Some _ => true
  | None => match hay with [] => false | _ :: rest => contains needle rest end
  end.
Proof. destruct hay; reflexivity. Qed.

Lemma contains_refl s : contains s s = true.
Proof.
  rewrite contains_eq. rewrite <- (app_nil_r s) at 2.
  rewrite strip_prefix_app. reflexivity.
Qed.

(** ** No pair of asterisks survives the italic rule *)

Lemma contains_bold_cons c s :
  contains bold_delim (c :: s)
  = (N.eqb c asterisk && starts_with_asterisk s) || contains bold_delim s.
Proof.
  rewrite contains_eq. change bold_delim with [asterisk; asterisk]. simpl.
  rewrite (N.eqb_sym asterisk c). destruct (N.eqb c asterisk); [|reflexivity].
  destruct s as [|b s]; [reflexivity|]. simpl.
  rewrite (N.eqb_sym asterisk b). destruct (N.eqb b asterisk); reflexivity.
Qed.

Lemma contains_bold_skip l o :
  asterisk ∉ l -> contains bold_delim (l ++ o) = contains bold_delim o.
Proof.
  induction l as [|c l IH]; intros H; [reflexivity|].
  apply not_elem_of_cons in H as [Hc Hl].
  rewrite <- app_comm_cons, contains_bold_cons.
  destruct (N.eqb_spec c asterisk); [congruence|]. apply IH. exact Hl.
Qed.

Lemma shortest_span_single a x body after :
  shortest_span [a] x body after -> a ∉ x.
Proof.
  intros [-> Hmin] Hin. apply list_elem_of_split in Hin as (x1 & x2 & ->).
  specialize (Hmin x1 (x2 ++ [a] ++ after)).
  rewrite <- !app_assoc in Hmin. specialize (Hmin eq_refl).
  rewrite length_app in Hmin. simpl in Hmin. lia.
Qed.

Lemma match_at_single a text x after :
  match_at [a] text = Some (x, after) ->
  text = a :: x ++ a :: after /\ (a ∉ x) /\ (newline ∉ x).
Proof.
  intros H. apply match_at_spec in H as (body & -> & Hs & Hn).
  pose proof (shortest_span_single _ _ _ _ Hs) as Ha.
  destruct Hs as [-> _]. auto.
Qed.

Lemma match_at_single_None c rest :
  match_at [asterisk] (c :: rest) = None ->
  c <> asterisk \/ (starts_with_asterisk rest = false /\ lazy_until [asterisk] rest = None).
Proof.
  unfold match_at. simpl. rewrite (N.eqb_sym asterisk c).
  destruct (N.eqb_spec c asterisk) as [->|Hc]; [|auto].
  intros H. right. split; [|exact H].
  rewrite lazy_until_eq in H. destruct rest as [|b rest]; [reflexivity|].
  simpl in *. rewrite (N.eqb_sym asterisk b) in H.
  destruct (N.eqb b asterisk); [discriminate | reflexivity].
Qed.

Lemma italic_pass_start s :
  starts_with_asterisk (italic_pass s) = true -> starts_with_asterisk s = true.
Proof.
  destruct s as [|c rest]; [intros H; exact H|]. simpl.
  destruct (N.eqb_spec c asterisk) as [|Hc]; [reflexivity|].
  unfold italic_pass. rewrite re_sub_miss.
  - simpl. destruct (N.eqb_spec c asterisk); [congruence | intros H; exact H].
  - discriminate.
  - apply match_at_head. exact Hc.
Qed.

Lemma italic_pass_no_pair text : contains bold_delim (italic_pass text) = false.
Proof.
  revert text.
  apply (scan_ind italic_delim (delim_nonempty _ _)
           (fun text => contains bold_delim (italic_pass text) = false)).
  - reflexivity.
  - intros c rest E IH. unfold italic_pass. rewrite re_sub_miss by (exact E || discriminate).
    fold (italic_pass rest). rewrite contains_bold_cons, IH, orb_false_r.
    destruct (match_at_single_None c rest E) as [Hc|[Hs _]].
    + destruct (N.eqb_spec c asterisk); [congruence | reflexivity].
    + destruct (starts_with_asterisk (italic_pass rest)) eqn:Hi; [|apply andb_false_r].
      apply italic_pass_start in Hi. congruence.
  - intros text x after Hne E IH. unfold italic_pass.
    rewrite (re_sub_hit italic_delim i_open i_close (delim_nonempty _ _) text x after Hne E).
    fold (italic_pass after).
    apply (match_at_single asterisk) in E as (_ & Hx & _).
    rewrite !app_assoc. rewrite contains_bold_skip; [exact IH|].
    rewrite !not_elem_of_app. repeat split; [|exact Hx|];
      absent.
Qed.

Lemma replace_start old new s :
  starts_with_asterisk new = false -> new <> [] ->
  starts_with_asterisk (replace old new s) = true -> starts_with_asterisk s = true.
Proof.
  intros Hnew Hne. destruct s as [|c rest]; [intros H; exact H|]. simpl.
  destruct (N.eqb c old); [|intros H; exact H].
  destruct new as [|n0 new]; [congruence|]. simpl in *. congruence.
Qed.

Lemma replace_no_pair old new s :
  asterisk ∉ new -> new <> [] ->
  contains bold_delim s = false -> contains bold_delim (replace old new s) = false.
Proof.
  intros Hnew Hne. 
  assert (Hst : starts_with_asterisk new = false).
  { destruct new as [|n0 new]; [reflexivity|]. simpl.
    apply not_elem_of_cons in Hnew as [Hn _].
    destruct (N.eqb_spec n0 asterisk); [congruence | reflexivity]. }
  induction s as [|c rest IH]; [intros H; exact H|].
  rewrite contains_bold_cons. intros H. apply orb_false_iff in H as [H1 H2].
  simpl. destruct (N.eqb c old).
  - rewrite contains_bold_skip by exact Hnew. apply IH. exact H2.
  - rewrite contains_bold_cons, (IH H2), orb_false_r.
    destruct (N.eqb c asterisk); [|reflexivity]. simpl in *.
    destruct (starts_with_asterisk (replace old new rest)) eqn:Hr; [|reflexivity].
    apply (replace_start old new rest Hst Hne) in Hr. congruence.
Qed.

(** The converter never leaves two asterisks side by side. *)
Lemma convert_no_pair text :
  contains bold_delim (convert_markdown_to_html text) = false.
Proof.
  unfold convert_markdown_to_html, bullet_pass, break_pass.
  apply replace_no_pair; [absent | discriminate |].
  apply replace_no_pair; [absent | discriminate |].
  apply italic_pass_no_pair.
Qed.

Lemma bullet_pass_wrap x :
  bullet_pass (b_open ++ x ++ b_close) = b_open ++ bullet_pass x ++ b_close.
Proof. unfold bullet_pass. rewrite !replace_app. reflexivity. Qed.

(** C7, amended: for [X] with no asterisk and no line break, the converter
    turns [**X**] into [X] between the bold tags, the bullets of [X] written
    as their entity, so the output contains that wrapping (of [X] itself
    when it has no bullet); and for every [X], with or without a line break,
    the output holds no [**]. *)
Theorem convert_bold_span (X : str) :
  asterisk ∉ X ->
  (newline ∉ X ->
   convert_markdown_to_html (bold_delim ++ X ++ bold_delim)
   = b_open ++ bullet_pass X ++ b_close /\
   contains (b_open ++ bullet_pass X ++ b_close)
     (convert_markdown_to_html (bold_delim ++ X ++ bold_delim)) = true /\
   (bullet ∉ X ->
    contains (b_open ++ X ++ b_close)
      (convert_markdown_to_html (bold_delim ++ X ++ bold_delim)) = true)) /\
  contains bold_delim (convert_markdown_to_html (bold_delim ++ X ++ bold_delim)) = false.
Proof.
  intros Ha. split; [|apply convert_no_pair].
  intros Hn.
  assert (E : convert_markdown_to_html (bold_delim ++ X ++ bold_delim)
              = b_open ++ bullet_pass X ++ b_close).
  { unfold convert_markdown_to_html. rewrite (bold_pass_span X Ha Hn).
    unfold italic_pass, italic_delim. change (py "*") with [asterisk].
    rewrite re_sub_absent.
    2:{ rewrite !not_elem_of_app. repeat split; [|exact Ha|];
          absent. }
    unfold break_pass. rewrite replace_absent.
    2:{ rewrite !not_elem_of_app. repeat split; [|exact Hn|];
          absent. }
    apply bullet_pass_wrap. }
  rewrite E. split; [reflexivity|]. split; [apply contains_refl|].
  intros Hb. unfold bullet_pass. rewrite (replace_absent bullet _ X Hb).
  apply contains_refl.
Qed.

Lemma convert_bold_span_witness :
  (asterisk ∉ bulleted_words) /\ (newline ∉ bulleted_words) /\
  convert_markdown_to_html (bold_delim ++ bulleted_words ++ bold_delim)
  = b_open ++ py "Key &bull; Point" ++ b_close /\
  contains bold_delim
    (convert_markdown_to_html (bold_delim ++ bulleted_words ++ bold_delim)) = false.
Proof.
  assert (Ha : asterisk ∉ bulleted_words) by absent.
  assert (Hn : newline ∉ bulleted_words) by absent.
  split; [exact Ha|]. split; [exact Hn|].
  destruct (convert_bold_span bulleted_words Ha) as [H1 H2].
  split; [exact (proj1 (H1 Hn)) | exact H2].
Defined.

(** C7 as stated fails: "a\nb" holds no asterisk, yet [**a\nb**] comes out
    with no bold tag at all, so with no bold wrapping of anything. *)
Lemma convert_bold_span_counterexample :
  (asterisk ∉ span_over_break) /\
  convert_markdown_to_html (bold_delim ++ span_over_break ++ bold_delim)
  = py "<i></i>a<br/>b<i></i>" /\
  (forall inner,
      contains (b_open ++ inner ++ b_close)
        (convert_markdown_to_html (bold_delim ++ span_over_break ++ bold_delim)) = false).
Proof.
  split; [absent|].
  assert (E : convert_markdown_to_html (bold_delim ++ span_over_break ++ bold_delim)
              = py "<i></i>a<br/>b<i></i>") by (vm_compute; reflexivity).
  rewrite E. split; [reflexivity|].
  intros inner. reflexivity.
Qed.

(** ** One pass over a text of one line *)

Lemma lazy_until_single_None a s :
  lazy_until [a] s = None -> newline ∉ s -> a ∉ s.
Proof.
  induction s as [|c s IH]; intros H Hn; [apply not_elem_of_nil|].
  apply not_elem_of_cons in Hn as [Hc Hn].
  rewrite lazy_until_eq in H. simpl in H.
  destruct (N.eqb_spec a c) as [|Hac]; [discriminate|].
  destruct (N.eqb_spec c newline); [congruence|].
  destruct (lazy_until [a] s) as [[x r]|] eqn:E; [discriminate|].
  apply not_elem_of_cons. split; [exact Hac | apply IH; [reflexivity | exact Hn]].
Qed.

Lemma italic_pass_leaves_one s :
  newline ∉ s -> count asterisk (italic_pass s) <= 1.
Proof.
  revert s.
  apply (scan_ind italic_delim (delim_nonempty _ _)
           (fun s => newline ∉ s -> count asterisk (italic_pass s) <= 1)).
  - intros _. simpl. lia.
  - intros c rest E IH Hn. apply not_elem_of_cons in Hn as [_ Hn].
    unfold italic_pass. rewrite re_sub_miss by (exact E || discriminate).
    fold (italic_pass rest). simpl.
    destruct (match_at_single_None c rest E) as [Hc|[_ Hl]].
    + destruct (N.eqb_spec c asterisk); [congruence|]. simpl. apply IH. exact Hn.
    + pose proof (lazy_until_single_None _ _ Hl Hn) as Hab.
      unfold italic_pass, italic_delim. change (py "*") with [asterisk].
      rewrite re_sub_absent by exact Hab.
      apply count_zero in Hab. rewrite Hab. destruct (N.eqb c asterisk); simpl; lia.
  - intros text x after Hne E IH Hn. unfold italic_pass.
    rewrite (re_sub_hit italic_delim i_open i_close (delim_nonempty _ _) text x after Hne E).
    fold (italic_pass after).
    apply (match_at_single asterisk) in E as (-> & Hx & _).
    rewrite !count_app. apply count_zero in Hx. rewrite Hx.
    change (count asterisk i_open) with 0. change (count asterisk i_close) with 0.
    simpl. apply IH.
    intros Hin. apply Hn. apply elem_of_cons. right.
    apply elem_of_app. right. apply elem_of_cons. right. exact Hin.
Qed.

Lemma bold_pass_keeps_line s : newline ∉ s -> newline ∉ bold_pass s.
Proof.
  intros Hn Hin. unfold bold_pass in Hin.
  apply re_sub_elem in Hin as [H|[H|H]]; [exact (Hn H) | | | discriminate];
    revert H; absent.
Qed.

Lemma replace_clears old new s : old ∉ new -> old ∉ replace old new s.
Proof.
  intros Hnew Hin. apply elem_of_replace in Hin as [[_ H]|H]; [congruence | exact (Hnew H)].
Qed.

Lemma replace_keeps_out a old new s : a ∉ s -> a ∉ new -> a ∉ replace old new s.
Proof.
  intros Hs Hnew Hin. apply elem_of_replace in Hin as [[H _]|H]; [exact (Hs H) | exact (Hnew H)].
Qed.

Lemma convert_no_break text : newline ∉ convert_markdown_to_html text.
Proof.
  unfold convert_markdown_to_html, bullet_pass, break_pass.
  apply replace_keeps_out; [|absent].
  apply replace_clears. apply count_zero. reflexivity.
Qed.

Lemma convert_no_bullet text : bullet ∉ convert_markdown_to_html text.
Proof.
  unfold convert_markdown_to_html, bullet_pass.
  apply replace_clears. apply count_zero. reflexivity.
Qed.

Lemma convert_count text :
  count asterisk (convert_markdown_to_html text)
  = count asterisk (italic_pass (bold_pass text)).
Proof.
  unfold convert_markdown_to_html, bullet_pass, break_pass.
  rewrite !count_replace; [reflexivity | discriminate | absent
                          | discriminate | absent].
Qed.

(** A text with at most one asterisk, no line break and no bullet is a fixed
    point of the converter. *)
Lemma convert_fixed u :
  count asterisk u <= 1 -> newline ∉ u -> bullet ∉ u ->
  convert_markdown_to_html u = u.
Proof.
  intros Hc Hn Hb. unfold convert_markdown_to_html, bold_pass, italic_pass,
    break_pass, bullet_pass, bold_delim, italic_delim.
  change (py "**") with [asterisk; asterisk]. change (py "*") with [asterisk].
  rewrite (re_sub_few asterisk [asterisk] b_open b_close u Hc).
  rewrite (re_sub_few asterisk [] i_open i_close u Hc).
  rewrite (replace_absent newline) by exact Hn.
  apply replace_absent. exact Hb.
Qed.

(** ** A second pass that finds a pair *)

Lemma re_sub_length d open close text :
  d <> [] -> 2 * length d <= length open + length close ->
  length text <= length (re_sub d open close text).
Proof.
  intros Hd Hlen. revert text.
  apply (scan_ind d Hd (fun text => length text <= length (re_sub d open close text))).
  - rewrite re_sub_nil. reflexivity.
  - intros c rest E IH. rewrite re_sub_miss by assumption. simpl. lia.
  - intros text x after Hne E IH.
    rewrite (re_sub_hit d open close Hd text x after Hne E).
    apply match_at_Some in E as [-> _]. rewrite !length_app. lia.
Qed.

Lemma replace_length old new s : new <> [] -> length s <= length (replace old new s).
Proof.
  intros Hne. induction s as [|c s IH]; [reflexivity|]. simpl.
  destruct (N.eqb c old); [|simpl; lia].
  rewrite length_app. destruct new; [congruence | simpl; lia].
Qed.

Lemma bold_pass_no_pair u : contains bold_delim u = false -> bold_pass u = u.
Proof.
  induction u as [|c rest IH]; [reflexivity|].
  rewrite contains_bold_cons. intros H. apply orb_false_iff in H as [H1 H2].
  unfold bold_pass. rewrite re_sub_miss; [fold (bold_pass rest); rewrite (IH H2); reflexivity
                                         | discriminate |].
  unfold match_at, bold_delim. change (py "**") with [asterisk; asterisk]. simpl.
  rewrite (N.eqb_sym asterisk c). destruct (N.eqb c asterisk); [|reflexivity].
  destruct rest as [|b rest]; [reflexivity|]. simpl in *.
  rewrite (N.eqb_sym asterisk b), H1. reflexivity.
Qed.

Lemma italic_pass_grows s :
  newline ∉ s -> 2 <= count asterisk s -> length s < length (italic_pass s).
Proof.
  revert s.
  apply (scan_ind italic_delim (delim_nonempty _ _)
           (fun s => newline ∉ s -> 2 <= count asterisk s ->
                     length s < length (italic_pass s))).
  - simpl. lia.
  - intros c rest E IH Hn Hc. apply not_elem_of_cons in Hn as [_ Hn].
    unfold italic_pass. rewrite re_sub_miss by (exact E || discriminate).
    fold (italic_pass rest). simpl in *.
    destruct (match_at_single_None c rest E) as [Hne|[_ Hl]].
    + destruct (N.eqb_spec c asterisk); [congruence|]. simpl in Hc.
      specialize (IH Hn Hc). lia.
    + apply (lazy_until_single_None _ _ Hl) in Hn. apply count_zero in Hn.
      rewrite Hn in Hc. destruct (N.eqb c asterisk); simpl in Hc; lia.
  - intros text x after Hne E _ _ _. unfold italic_pass.
    rewrite (re_sub_hit italic_delim i_open i_close (delim_nonempty _ _) text x after Hne E).
    pose proof (re_sub_length italic_delim i_open i_close after (delim_nonempty _ _)) as Hlen.
    apply match_at_Some in E as [-> _]. rewrite !length_app.
    change (length italic_delim) with 1 in *. change (length i_open) with 3 in *.
    change (length i_close) with 4 in *. specialize (Hlen ltac:(lia)). lia.
Qed.

Lemma convert_grows u :
  newline ∉ u -> contains bold_delim u = false -> 2 <= count asterisk u ->
  length u < length (convert_markdown_to_html u).
Proof.
  intros Hn Hp Hc. unfold convert_markdown_to_html.
  rewrite (bold_pass_no_pair u Hp).
  pose proof (italic_pass_grows u Hn Hc) as H1.
  pose proof (replace_length newline br_tag (italic_pass u) ltac:(discriminate)) as H2.
  pose proof (replace_length bullet bull_entity (break_pass (italic_pass u))
                ltac:(discriminate)) as H3.
  unfold bullet_pass, break_pass in *. lia.
Qed.

(** C9, amended: over a text with no line break the converter leaves at most
    one asterisk, so a second pass changes nothing:
    convert(convert(t)) == convert(t).  Over any text a pass leaves no line
    break and no bullet, and the second pass changes nothing exactly when
    the first left at most one asterisk. *)
Theorem convert_twice (t : str) :
  ((newline ∉ convert_markdown_to_html t) /\ (bullet ∉ convert_markdown_to_html t)) /\
  (convert_markdown_to_html (convert_markdown_to_html t) = convert_markdown_to_html t
   <-> count asterisk (convert_markdown_to_html t) <= 1) /\
  (newline ∉ t ->
   count asterisk (convert_markdown_to_html t) <= 1 /\
   convert_markdown_to_html (convert_markdown_to_html t) = convert_markdown_to_html t).
Proof.
  pose proof (convert_no_break t) as Hn. pose proof (convert_no_bullet t) as Hb.
  split; [split; assumption|].
  assert (Hfix : count asterisk (convert_markdown_to_html t) <= 1 ->
                 convert_markdown_to_html (convert_markdown_to_html t)
                 = convert_markdown_to_html t).
  { intros Hc. apply convert_fixed; assumption. }
  split.
  - split; [|exact Hfix].
    intros E. destruct (le_lt_dec (count asterisk (convert_markdown_to_html t)) 1) as [|Hc];
      [assumption|].
    pose proof (convert_grows _ Hn (convert_no_pair t) Hc) as Hlen.
    rewrite E in Hlen. lia.
  - intros Hline.
    assert (Hc : count asterisk (convert_markdown_to_html t) <= 1).
    { rewrite convert_count. apply italic_pass_leaves_one.
      apply bold_pass_keeps_line. exact Hline. }
    split; [exact Hc | exact (Hfix Hc)].
Qed.

Lemma convert_twice_witness :
  (newline ∉ py "**a*b**c*") /\
  count asterisk (convert_markdown_to_html (py "**a*b**c*")) <= 1 /\
  convert_markdown_to_html (convert_markdown_to_html (py "**a*b**c*"))
  = convert_markdown_to_html (py "**a*b**c*").
Proof.
  assert (Hn : newline ∉ py "**a*b**c*") by absent.
  split; [exact Hn|].
  exact (proj2 (proj2 (convert_twice (py "**a*b**c*"))) Hn).
Defined.

(** C9 as stated fails: "*a\nb*" comes out as "*a<br/>b*", with both
    asterisks, and a second pass pairs them. *)
Lemma convert_twice_counterexample :
  convert_markdown_to_html italic_over_break = py "*a<br/>b*" /\
  count asterisk (convert_markdown_to_html italic_over_break) = 2 /\
  convert_markdown_to_html (convert_markdown_to_html italic_over_break)
  = py "<i>a<br/>b</i>" /\
  convert_markdown_to_html (convert_markdown_to_html italic_over_break)
  <> convert_markdown_to_html italic_over_break.
Proof.
  split; [vm_compute; reflexivity|]. split; [vm_compute; reflexivity|].
  split; [vm_compute; reflexivity|]. vm_compute. discriminate.
Qed.

(** ** The frame of the converter *)

Lemma frame_refl s : frame s s.
Proof. induction s; constructor; assumption. Qed.

Lemma frame_trans a b c : frame a b -> frame b c -> frame a c.
Proof.
  intros H1. revert c. induction H1 as [|x a b H1 IH|x a b Hx H1 IH|y a b Hy H1 IH]; intros c H2.
  - exact H2.
  - remember (x :: b) as xb eqn:E. revert E.
    induction H2 as [|z s o H2 IH2|z s o Hz H2 IH2|z s o Hz H2 IH2]; intros E.
    + discriminate.
    + injection E as -> ->. apply frame_keep. apply IH. exact H2.
    + injection E as -> ->. apply frame_drop; [exact Hz | apply IH; exact H2].
    + apply frame_put; [exact Hz | apply IH2; exact E].
  - apply frame_drop; [exact Hx | apply IH; exact H2].
  - remember (y :: b) as yb eqn:E. revert E.
    induction H2 as [|z s o H2 IH2|z s o Hz H2 IH2|z s o Hz H2 IH2]; intros E.
    + discriminate.
    + injection E as -> ->. apply frame_put; [exact Hy | apply IH; exact H2].
    + injection E as -> ->. apply IH. exact H2.
    + apply frame_put; [exact Hz | apply IH2; exact E].
Qed.

Lemma frame_keep_list l s o : frame s o -> frame (l ++ s) (l ++ o).
Proof. intros H. induction l; [exact H | apply frame_keep; assumption]. Qed.

Lemma frame_drop_list l s o :
  Forall (fun c => rewritten c = true) l -> frame s o -> frame (l ++ s) o.
Proof.
  intros Hl H. induction Hl; [exact H | apply frame_drop; assumption].
Qed.

Lemma frame_put_list l s o :
  Forall (fun c => markup_char c = true) l -> frame s o -> frame s (l ++ o).
Proof.
  intros Hl H. induction Hl; [exact H | apply frame_put; assumption].
Qed.

Lemma re_sub_frame d open close text :
  d <> [] ->
  Forall (fun c => rewritten c = true) d ->
  Forall (fun c => markup_char c = true) open ->
  Forall (fun c => markup_char c = true) close ->
  frame text (re_sub d open close text).
Proof.
  intros Hd Hdel Hopen Hclose. revert text.
  apply (scan_ind d Hd (fun text => frame text (re_sub d open close text))).
  - rewrite re_sub_nil. constructor.
  - intros c rest E IH. rewrite re_sub_miss by assumption. apply frame_keep. exact IH.
  - intros text x after Hne E IH.
    rewrite (re_sub_hit d open close Hd text x after Hne E).
    apply match_at_Some in E as [-> _].
    apply frame_drop_list; [exact Hdel|]. apply frame_put_list; [exact Hopen|].
    apply frame_keep_list. apply frame_drop_list; [exact Hdel|].
    apply frame_put_list; [exact Hclose|]. exact IH.
Qed.

Lemma replace_frame old new s :
  rewritten old = true -> Forall (fun c => markup_char c = true) new ->
  frame s (replace old new s).
Proof.
  intros Hold Hnew. induction s as [|c s IH]; [constructor|]. simpl.
  destruct (N.eqb_spec c old) as [->|_].
  - apply frame_drop; [exact Hold|]. apply frame_put_list; [exact Hnew | exact IH].
  - apply frame_keep. exact IH.
Qed.

Lemma frame_untouched s o : frame s o -> untouched s `sublist_of` o.
Proof.
  induction 1 as [|c s o H IH|c s o Hc H IH|c s o Hc H IH]; simpl.
  - constructor.
  - unfold untouched. simpl. destruct (rewritten c); simpl.
    + apply sublist_cons. exact IH.
    + apply sublist_skip. exact IH.
  - unfold untouched. simpl. rewrite Hc. exact IH.
  - apply sublist_cons. exact IH.
Qed.

Lemma markup_not_rewritten c : markup_char c = true -> rewritten c = false.
Proof.
  unfold markup_char. rewrite existsb_exists. intros (tag & Ht & Hc).
  apply existsb_exists in Hc as (c' & Hc' & E). apply N.eqb_eq in E. subst c'.
  apply (tags_clean tag c); apply list_elem_of_In; assumption.
Qed.

(** C10: the converter takes out only asterisks, line breaks and bullets and
    puts in only characters of its tags, none of which a rule looks for;
    every other character of the text, [<], [>] and [&] among them, is in
    the output as it was and in the order it had. *)
Theorem convert_frame (text : str) :
  frame text (convert_markdown_to_html text) /\
  untouched text `sublist_of` convert_markdown_to_html text /\
  (forall c, markup_char c = true -> rewritten c = false) /\
  untouched (py "a<b & c>d") = py "a<b & c>d" /\
  convert_markdown_to_html (py "*1<2* & **3>2**") = py "<i>1<2</i> & <b>3>2</b>".
Proof.
  assert (H : frame text (convert_markdown_to_html text)).
  { unfold convert_markdown_to_html.
    apply (frame_trans _ (bold_pass text)).
    { apply re_sub_frame; [discriminate | | |]; repeat constructor. }
    apply (frame_trans _ (italic_pass (bold_pass text))).
    { apply re_sub_frame; [discriminate | | |]; repeat constructor. }
    apply (frame_trans _ (break_pass (italic_pass (bold_pass text)))).
    { apply replace_frame; [reflexivity | repeat constructor]. }
    apply replace_frame; [reflexivity | repeat constructor]. }
  split; [exact H|]. split; [apply frame_untouched; exact H|].
  split; [exact markup_not_rewritten|].
  split; vm_compute; reflexivity.
Qed.

(** ** The four rules *)

Lemma re_sub_scan_rule d open close :
  d <> [] -> scan_rule d open close (re_sub d open close).
Proof.
  intros Hd. split; [apply re_sub_nil|]. split.
  - intros c rest E. apply re_sub_miss; assumption.
  - intros s x after Hne E. apply re_sub_hit; assumption.
Qed.

Lemma replace_replace_rule old new :
  old ∉ new -> replace_rule old new (replace old new).
Proof.
  intros Hnew. split; [reflexivity|]. split.
  - intros c rest. simpl. destruct (N.eqb c old); reflexivity.
  - intros s. apply replace_clears. exact Hnew.
Qed.

Lemma swaps_refl s : swaps s s.
Proof. induction s; constructor; assumption. Qed.

Lemma swaps_keep_list l s o : swaps s o -> swaps (l ++ s) (l ++ o).
Proof. intros H. induction l; [exact H | apply swaps_keep; assumption]. Qed.

(** A delimiter gives its place to a tag. *)
Lemma swaps_delim d ins s o :
  d <> [] -> Forall (fun c => rewritten c = true) d ->
  Forall (fun c => markup_char c = true) ins ->
  swaps s o -> swaps (d ++ s) (ins ++ o).
Proof.
  intros Hd Hdel Hins H. destruct d as [|c d]; [congruence|].
  apply Forall_cons in Hdel as [Hc Hdel]. simpl.
  apply swaps_at; [exact Hc | exact Hins|].
  induction Hdel as [|c' d' Hc' _ IH]; [exact H|].
  simpl. apply (swaps_at c' []); [exact Hc' | constructor | apply IH; discriminate].
Qed.

Lemma re_sub_swaps d open close text :
  d <> [] ->
  Forall (fun c => rewritten c = true) d ->
  Forall (fun c => markup_char c = true) open ->
  Forall (fun c => markup_char c = true) close ->
  swaps text (re_sub d open close text).
Proof.
  intros Hd Hdel Hopen Hclose. revert text.
  apply (scan_ind d Hd (fun text => swaps text (re_sub d open close text))).
  - rewrite re_sub_nil. constructor.
  - intros c rest E IH. rewrite re_sub_miss by assumption. apply swaps_keep. exact IH.
  - intros text x after Hne E IH.
    rewrite (re_sub_hit d open close Hd text x after Hne E).
    apply match_at_Some in E as [-> _].
    apply swaps_delim; [exact Hd | exact Hdel | exact Hopen|].
    apply swaps_keep_list. apply swaps_delim; [exact Hd | exact Hdel | exact Hclose|].
    exact IH.
Qed.

Lemma replace_swaps old new s :
  rewritten old = true -> Forall (fun c => markup_char c = true) new ->
  swaps s (replace old new s).
Proof.
  intros Hold Hnew. induction s as [|c s IH]; [constructor|]. simpl.
  destruct (N.eqb_spec c old) as [->|_].
  - apply swaps_at; [exact Hold | exact Hnew | exact IH].
  - apply swaps_keep. exact IH.
Qed.

(** A stretch that holds no character a rule looks for stays whole and in
    its place. *)
Lemma swaps_whole l m r o :
  Forall (fun c => rewritten c = false) m ->
  swaps (l ++ m ++ r) o ->
  exists l' r', o = l' ++ m ++ r' /\ swaps l l' /\ swaps r r'.
Proof.
  intros Hm. revert o. induction l as [|c l IH]; intros o H.
  - simpl in H. revert o H. induction Hm as [|c m Hc _ IHm]; intros o H.
    + exists [], o. split; [reflexivity|]. split; [constructor | exact H].
    + simpl in H. inversion H as [|c' s' o' H'|c' ins s' o' Hr _ _]; subst.
      * destruct (IHm o' H') as (l' & r' & -> & Hl & Hr').
        inversion Hl; subst. exists [], r'. split; [reflexivity|].
        split; [constructor | exact Hr'].
      * congruence.
  - rewrite <- app_comm_cons in H.
    inversion H as [|c' s' o' H'|c' ins s' o' Hr Hins H']; subst.
    + destruct (IH o' H') as (l' & r' & -> & Hl & Hr').
      exists (c :: l'), r'. split; [reflexivity|]. split; [apply swaps_keep; exact Hl | exact Hr'].
    + destruct (IH o' H') as (l' & r' & -> & Hl & Hr').
      exists (ins ++ l'), r'. rewrite <- app_assoc. split; [reflexivity|].
      split; [apply swaps_at; assumption | exact Hr'].
Qed.

Lemma tag_clean_all tag :
  tag ∈ tags -> Forall (fun c => rewritten c = false) tag.
Proof. intros Ht. apply Forall_forall. intros c Hc. exact (tags_clean tag c Ht Hc). Qed.

Lemma later_passes_swap s :
  swaps s (italic_pass s) /\ swaps s (break_pass s) /\ swaps s (bullet_pass s).
Proof.
  split; [apply re_sub_swaps; [discriminate | | |]; repeat constructor|].
  split; apply replace_swaps; solve [reflexivity | repeat constructor].
Qed.

(** C4, amended: the converter is the bold rule, then the italic rule, then
    the line-break rule, then the bullet rule.  The bold rule puts between
    the bold tags every span [**X**] that the scan meets, [X] being the
    shortest stretch up to the next [**] and holding no line break; the
    italic rule does the same for [*X*]; a pair of markers with a line break
    between them is left to the scan as plain characters.  The last two
    rules replace every line break and every bullet.  No character of a tag
    is one that a rule looks for: a later rule writes only where a character
    it looks for stood, so a tag that is in its text, written by an earlier
    rule or not, is in its output whole and where it was, and no match of a
    later rule begins or ends on a character of a tag.  The span of an
    italic match can enclose tags that the bold rule wrote: [***a***] comes
    out as [<b><i>a</b></i>]. *)
Theorem convert_rules (text : str) :
  convert_markdown_to_html text
  = bullet_pass (break_pass (italic_pass (bold_pass text))) /\
  scan_rule bold_delim b_open b_close bold_pass /\
  scan_rule italic_delim i_open i_close italic_pass /\
  (forall d s x after,
      match_at d s = Some (x, after) <->
      exists body, s = d ++ body /\ shortest_span d x body after /\ newline ∉ x) /\
  replace_rule newline br_tag break_pass /\
  replace_rule bullet bull_entity bullet_pass /\
  bold_delim = [asterisk; asterisk] /\ italic_delim = [asterisk] /\
  tags = [py "<b>"; py "</b>"; py "<i>"; py "</i>"; py "<br/>"; py "&bull;"] /\
  convert_markdown_to_html (py "**a** *b*" ++ [newline; bullet])
  = py "<b>a</b> <i>b</i><br/>&bull;" /\
  (forall tag c rest,
      tag ∈ tags -> c ∈ tag ->
      rewritten c = false /\
      match_at italic_delim (c :: rest) = None /\
      break_pass (c :: rest) = c :: break_pass rest /\
      bullet_pass (c :: rest) = c :: bullet_pass rest) /\
  (forall s x after,
      match_at italic_delim s = Some (x, after) ->
      s = [asterisk] ++ x ++ [asterisk] ++ after) /\
  (forall pass,
      pass ∈ [italic_pass; break_pass; bullet_pass] ->
      forall s,
        swaps s (pass s) /\
        forall l tag r,
          tag ∈ tags -> s = l ++ tag ++ r ->
          exists l' r', pass s = l' ++ tag ++ r' /\ swaps l l' /\ swaps r r') /\
  bold_pass triple_marked = py "<b>*a</b>*" /\
  match_at italic_delim (py "*a</b>*") = Some (py "a</b>", []) /\
  convert_markdown_to_html triple_marked = py "<b><i>a</b></i>".
Proof.
  split; [reflexivity|].
  split; [apply re_sub_scan_rule; discriminate|].
  split; [apply re_sub_scan_rule; discriminate|].
  split; [intros d s x after; apply match_at_spec|].
  split; [apply replace_replace_rule; absent|].
  split; [apply replace_replace_rule; absent|].
  split; [reflexivity|]. split; [reflexivity|]. split; [reflexivity|].
  split; [vm_compute; reflexivity|].
  split.
  { intros tag c rest Ht Hc. pose proof (tags_clean tag c Ht Hc) as Hr.
    split; [exact Hr|]. unfold rewritten in Hr.
    apply orb_false_iff in Hr as [Hr Hb]. apply orb_false_iff in Hr as [Ha Hn].
    split; [apply (match_at_head asterisk []); apply N.eqb_neq; exact Ha|].
    unfold break_pass, bullet_pass. simpl. rewrite Hn, Hb. split; reflexivity. }
  split.
  { intros s x after H. apply match_at_Some in H as [H _]. exact H. }
  split.
  { intros pass Hp s.
    assert (Hs : swaps s (pass s)).
    { destruct (later_passes_swap s) as (Hi & Hbr & Hbu).
      repeat (apply elem_of_cons in Hp as [->|Hp]; [assumption|]).
      apply elem_of_nil in Hp. destruct Hp. }
    split; [exact Hs|].
    intros l tag r Ht ->. apply swaps_whole; [apply tag_clean_all; exact Ht | exact Hs]. }
  split; [vm_compute; reflexivity|]. split; vm_compute; reflexivity.
Qed.

(** C4 as stated fails twice.  "a\nb" holds no [**], yet the bold rule
    leaves [**a\nb**] as it is, and the italic rule then pairs the asterisks
    of each marker around nothing.  And a later rule does match text that an
    earlier one wrote: of [***a***] the bold rule makes [<b>*a</b>*], and
    the italic match that begins at the asterisk left over runs over the
    closing bold tag, which ends up inside the italic tags. *)
Lemma convert_rules_counterexample :
  contains bold_delim span_over_break = false /\
  bold_pass (bold_delim ++ span_over_break ++ bold_delim)
  = bold_delim ++ span_over_break ++ bold_delim /\
  bold_pass (bold_delim ++ span_over_break ++ bold_delim)
  <> b_open ++ span_over_break ++ b_close /\
  italic_pass (bold_pass (bold_delim ++ span_over_break ++ bold_delim))
  = i_open ++ i_close ++ span_over_break ++ i_open ++ i_close /\
  contains b_open
    (convert_markdown_to_html (bold_delim ++ span_over_break ++ bold_delim)) = false /\
  bold_pass (py "***a***") = py "<b>" ++ py "*a" ++ py "</b>" ++ py "*" /\
  match_at italic_delim (py "*a" ++ py "</b>" ++ py "*") = Some (py "a" ++ py "</b>", []) /\
  italic_pass (py "<b>" ++ py "*a" ++ py "</b>" ++ py "*")
  = py "<b>" ++ py "<i>" ++ py "a" ++ py "</b>" ++ py "</i>" /\
  convert_markdown_to_html (py "***a***") = py "<b><i>a</b></i>".
Proof.
  split; [vm_compute; reflexivity|]. split; [vm_compute; reflexivity|].
  split; [vm_compute; discriminate|]. split; [vm_compute; reflexivity|].
  split; [vm_compute; reflexivity|]. split; [vm_compute; reflexivity|].
  split; [vm_compute; reflexivity|]. split; vm_compute; reflexivity.
Qed.

(** * The script around the two functions *)

#[local] Arguments py : simpl never.
#[local] Arguments SUMMARY_PROMPT : simpl never.
#[local] Arguments app : simpl never.

(** ** Blank texts *)

Lemma token_starts_zero s :
  token_starts true s = 0 <-> Forall (fun c => isspace c = true) s.
Proof.
  induction s as [|c s IH]; simpl.
  - split; [constructor | reflexivity].
  - destruct (isspace c) eqn:E.
    + rewrite IH. split; [intros H; constructor; assumption | intros H; inversion H; assumption].
    + split; [discriminate | intros H; inversion H; congruence].
Qed.

Lemma lstrip_spaces s : Forall (fun c => isspace c = true) s -> lstrip s = [].
Proof. induction 1 as [|c s Hc _ IH]; simpl; [reflexivity | rewrite Hc; exact IH]. Qed.

Lemma lstrip_head s :
  lstrip s = [] \/ exists c rest, lstrip s = c :: rest /\ isspace c = false.
Proof.
  induction s as [|c s IH]; simpl; [left; reflexivity|].
  destruct (isspace c) eqn:E; [exact IH | right; eauto].
Qed.

Lemma lstrip_nil s : lstrip s = [] -> Forall (fun c => isspace c = true) s.
Proof.
  induction s as [|c s IH]; simpl; [constructor|].
  destruct (isspace c) eqn:E; [intros H; constructor; auto | discriminate].
Qed.

Lemma strip_nil s : strip s = [] <-> Forall (fun c => isspace c = true) s.
Proof.
  unfold strip, rstrip. split.
  - intros H. apply (f_equal (@rev char)) in H. rewrite rev_involutive in H. simpl in H.
    apply lstrip_nil in H. apply lstrip_nil.
    destruct (lstrip_head s) as [E|(c & rest & E & Hc)]; [exact E|].
    rewrite E in H. apply Forall_forall with (x := c) in H; [congruence|].
    apply list_elem_of_In. apply in_rev. rewrite rev_involutive. left. reflexivity.
  - intros H. rewrite (lstrip_spaces s H). reflexivity.
Qed.

Lemma blank_iff_no_word text :
  negb (truthy text) || negb (truthy (strip text)) = true
  <-> whitespace_delimited_tokens text = 0.
Proof.
  unfold whitespace_delimited_tokens. rewrite token_starts_zero, <- strip_nil.
  destruct text as [|c rest]; [split; reflexivity|].
  simpl negb at 1. rewrite orb_false_l.
  destruct (strip (c :: rest)); simpl; split; congruence.
Qed.

(** X1: the summarise button refuses a text with the warning, and changes
    nothing, exactly when the text holds no word ([len(text.split())] is
    zero: empty or white space only); this test comes first, whatever the
    key and the library. *)
Theorem blank_text_refused (api_key user_text : str) (a : App) :
  summarize_branch api_key user_text a = ([st_warning blank_warning], a)
  <-> length (split user_text) = 0.
Proof.
  rewrite split_length, <- blank_iff_no_word. unfold summarize_branch.
  destruct (negb (truthy user_text) || negb (truthy (strip user_text))).
  - split; reflexivity.
  - split; [|discriminate]. destruct (negb (truthy api_key)); [discriminate|].
    destruct (configure_gemini api_key a) as [[[]|f] a1]; [|discriminate].
    destruct (generate_gemini_summary user_text a1) as [[s|f] a2]; discriminate.
Qed.

(** ** The summarise button *)

Lemma truthy_nonempty s : truthy s = true <-> s <> [].
Proof. destruct s; simpl; split; congruence. Qed.

Lemma last_summary_set s a : last_summary (set_last_summary s a) = s.
Proof.
  unfold last_summary, set_last_summary, with_session. cbn [session_state].
  rewrite lookup_insert_eq. reflexivity.
Qed.

Lemma stored_summary_nonempty s : (if truthy s then s else no_content) <> [].
Proof. destruct s; simpl; discriminate. Qed.

(** X2: with a text that holds a word and [GEMINI_API_KEY] unset or empty,
    the button reports the missing key and stops: nothing is configured,
    nothing is sent, the stored summary stays. *)
Theorem missing_key_reported (user_text : str) (a : App) :
  length (split user_text) <> 0 ->
  environ a !! py "GEMINI_API_KEY" = None \/ environ a !! py "GEMINI_API_KEY" = Some [] ->
  get_api_key a = [] /\
  summarize_branch (get_api_key a) user_text a = ([st_error key_error], a).
Proof.
  intros Hw Hk.
  assert (E : get_api_key a = []).
  { unfold get_api_key.
    destruct Hk as [H|H];
      (etransitivity; [apply (f_equal (default [])); exact H | reflexivity]). }
  split; [exact E|]. rewrite E. unfold summarize_branch.
  destruct (negb (truthy user_text) || negb (truthy (strip user_text))) eqn:Hb.
  - apply blank_iff_no_word in Hb. rewrite <- split_length in Hb. contradiction.
  - reflexivity.
Qed.

Lemma missing_key_reported_witness :
  length (split scenario_text) <> 0 /\
  (environ keyless_app !! py "GEMINI_API_KEY" = None \/
   environ keyless_app !! py "GEMINI_API_KEY" = Some []) /\
  get_api_key keyless_app = [] /\
  summarize_branch (get_api_key keyless_app) scenario_text keyless_app
  = ([st_error key_error], keyless_app).
Proof.
  assert (Hw : length (split scenario_text) <> 0) by (vm_compute; discriminate).
  assert (Hk : environ keyless_app !! py "GEMINI_API_KEY" = None \/
               environ keyless_app !! py "GEMINI_API_KEY" = Some [])
    by (left; reflexivity).
  split; [exact Hw|]. split; [exact Hk|].
  exact (missing_key_reported scenario_text keyless_app Hw Hk).
Defined.

(** X3: a failure that the summarise button reports is one of two: the
    library is not installed, and then nothing was sent and nothing changed,
    or the service raised on the prompt that went out.  The "key not set"
    error of [configure_gemini] and the missing [GenerativeModel] never
    reach the page. *)
Theorem reported_failures (api_key user_text : str) (a : App)
    (out : list ui) (a' : App) (f : failure) :
  summarize_branch api_key user_text a = (out, a') ->
  st_error_with summary_failed f ∈ out ->
  (f = Raised (RuntimeError not_installed_message) /\ genai a = false /\ a' = a) \/
  (f = GenaiError /\ genai a = true /\
   generate_content a (SUMMARY_PROMPT ++ user_text) = None /\
   sent a' = sent a ++ [SUMMARY_PROMPT ++ user_text] /\
   session_state a' = session_state a).
Proof.
  unfold summarize_branch.
  destruct (negb (truthy user_text) || negb (truthy (strip user_text))).
  { intros [= <- <-] H. apply list_elem_of_singleton in H. discriminate. }
  destruct (truthy api_key) eqn:Hk; simpl.
  2:{ intros [= <- <-] H. apply list_elem_of_singleton in H. discriminate. }
  unfold configure_gemini. destruct (genai a) eqn:Hg; simpl.
  2:{ intros [= <- <-] H. apply list_elem_of_singleton in H. injection H as ->. left. auto. }
  rewrite Hk. simpl. unfold generate_gemini_summary. cbn [genai with_configured]. rewrite Hg. simpl.
  cbn [generate_content with_sent with_configured].
  destruct (generate_content a (SUMMARY_PROMPT ++ user_text)) as [[s|]|] eqn:Hr.
  - intros [= <- <-] H. apply elem_of_nil in H. destruct H.
  - intros [= <- <-] H. apply elem_of_nil in H. destruct H.
  - intros [= <- <-] H. apply list_elem_of_singleton in H. injection H as ->.
    right. repeat split; reflexivity.
Qed.

Lemma reported_failures_witness :
  summarize_branch (get_api_key bare_app) scenario_text bare_app
  = ([st_error_with summary_failed (Raised (RuntimeError not_installed_message))], bare_app) /\
  (st_error_with summary_failed (Raised (RuntimeError not_installed_message))
   ∈ [st_error_with summary_failed (Raised (RuntimeError not_installed_message))]) /\
  ((Raised (RuntimeError not_installed_message) = Raised (RuntimeError not_installed_message) /\
    genai bare_app = false /\ bare_app = bare_app) \/
   (Raised (RuntimeError not_installed_message) = GenaiError /\ genai bare_app = true /\
    generate_content bare_app (SUMMARY_PROMPT ++ scenario_text) = None /\
    sent bare_app = sent bare_app ++ [SUMMARY_PROMPT ++ scenario_text] /\
    session_state bare_app = session_state bare_app)).
Proof.
  assert (H1 : summarize_branch (get_api_key bare_app) scenario_text bare_app
               = ([st_error_with summary_failed (Raised (RuntimeError not_installed_message))],
                  bare_app)) by (vm_compute; reflexivity).
  assert (H2 : st_error_with summary_failed (Raised (RuntimeError not_installed_message))
               ∈ [st_error_with summary_failed (Raised (RuntimeError not_installed_message))])
    by (apply list_elem_of_singleton; reflexivity).
  split; [exact H1|]. split; [exact H2|].
  exact (reported_failures _ _ _ _ _ _ H1 H2).
Defined.

Lemma summarize_branch_answer (api_key user_text : str) (a : App) (r : response) :
  length (split user_text) <> 0 ->
  api_key <> [] ->
  genai a = true ->
  generate_content a (SUMMARY_PROMPT ++ user_text) = Some r ->
  summarize_branch api_key user_text a
  = ([], set_last_summary
           (let summary := match r with TextIs s => s | NoText => [] end in
            if truthy summary then summary else no_content)
           (with_sent (SUMMARY_PROMPT ++ user_text) (with_configured api_key a))).
Proof.
  intros Hw Hk Hg Hr. apply truthy_nonempty in Hk. unfold summarize_branch.
  destruct (negb (truthy user_text) || negb (truthy (strip user_text))) eqn:Hb.
  { apply blank_iff_no_word in Hb. rewrite <- split_length in Hb. contradiction. }
  rewrite Hk. simpl. unfold configure_gemini. rewrite Hg, Hk. simpl.
  unfold generate_gemini_summary. cbn [genai with_configured]. rewrite Hg. simpl.
  cbn [generate_content with_sent with_configured]. rewrite Hr.
  destruct r as [s|]; reflexivity.
Qed.

(** X4: with a text that holds a word, a key and the library, when the
    service answers, the button reports nothing: the key went to
    [genai.configure], the one prompt that went out is [SUMMARY_PROMPT]
    followed by the text as typed (not stripped), and the stored summary is
    the answer's text, or "(No content returned)" when the text is empty or
    missing; it is never empty. *)
Theorem summary_stored (api_key user_text : str) (a : App) (r : response) :
  length (split user_text) <> 0 ->
  api_key <> [] ->
  genai a = true ->
  generate_content a (SUMMARY_PROMPT ++ user_text) = Some r ->
  exists a',
    summarize_branch api_key user_text a = ([], a') /\
    configured a' = Some api_key /\
    sent a' = sent a ++ [SUMMARY_PROMPT ++ user_text] /\
    last_summary a' = match r with
                      | TextIs [] | NoText => no_content
                      | TextIs s => s
                      end /\
    last_summary a' <> [].
Proof.
  intros Hw Hk Hg Hr. eexists.
  split; [exact (summarize_branch_answer api_key user_text a r Hw Hk Hg Hr)|].
  rewrite last_summary_set. split; [reflexivity|]. split; [reflexivity|].
  split; [destruct r as [[|c s]|]; reflexivity | apply stored_summary_nonempty].
Qed.

Lemma summary_stored_witness :
  let a := ready_app (Some (TextIs [])) in
  length (split scenario_text) <> 0 /\
  get_api_key a <> [] /\
  genai a = true /\
  generate_content a (SUMMARY_PROMPT ++ scenario_text) = Some (TextIs []) /\
  exists a',
    summarize_branch (get_api_key a) scenario_text a = ([], a') /\
    configured a' = Some (get_api_key a) /\
    sent a' = sent a ++ [SUMMARY_PROMPT ++ scenario_text] /\
    last_summary a' = no_content /\
    last_summary a' <> [].
Proof.
  intros a.
  assert (Hw : length (split scenario_text) <> 0) by (vm_compute; discriminate).
  assert (Hk : get_api_key a <> []) by (vm_compute; discriminate).
  assert (Hg : genai a = true) by reflexivity.
  assert (Hr : generate_content a (SUMMARY_PROMPT ++ scenario_text) = Some (TextIs []))
    by reflexivity.
  split; [exact Hw|]. split; [exact Hk|]. split; [exact Hg|]. split; [exact Hr|].
  exact (summary_stored (get_api_key a) scenario_text a (TextIs []) Hw Hk Hg Hr).
Defined.

Lemma last_summary_ext a b :
  session_state a = session_state b -> last_summary a = last_summary b.
Proof. unfold last_summary. intros ->. reflexivity. Qed.

Lemma summarize_branch_cases api_key user_text a :
  (exists msg, summarize_branch api_key user_text a = ([msg], a)) \/
  (exists f a', summarize_branch api_key user_text a = ([st_error_with summary_failed f], a') /\
                session_state a' = session_state a) \/
  (exists a', summarize_branch api_key user_text a = ([], a') /\ last_summary a' <> []).
Proof.
  unfold summarize_branch.
  destruct (negb (truthy user_text) || negb (truthy (strip user_text))); [left; eauto|].
  destruct (negb (truthy api_key)); [left; eauto|].
  unfold configure_gemini. destruct (genai a) eqn:Hg; simpl; [|left; eauto].
  destruct (negb (truthy api_key)); [left; eauto|].
  unfold generate_gemini_summary. cbn [genai with_configured]. rewrite Hg. simpl.
  cbn [generate_content with_sent with_configured].
  destruct (generate_content a (SUMMARY_PROMPT ++ user_text)) as [[s|]|].
  - right. right. eexists. split; [reflexivity|].
    rewrite last_summary_set. apply stored_summary_nonempty.
  - right. right. eexists. split; [reflexivity|].
    rewrite last_summary_set. discriminate.
  - right. left. eexists _, _. split; reflexivity.
Qed.

Lemma summary_section_session dl a :
  session_state (snd (summary_section dl a)) = session_state a.
Proof.
  unfold summary_section. destruct (truthy (last_summary a)); [|reflexivity].
  destruct dl; [|reflexivity].
  destruct (save_summary_as_pdf (last_summary a) (world a)) as [[fname|e] w]; [|reflexivity].
  destruct (disk w !! fname); reflexivity.
Qed.

Lemma init_session_present a :
  is_Some (session_state (init_session a) !! last_summary_key) /\
  last_summary (init_session a) = last_summary a.
Proof.
  unfold init_session, last_summary.
  destruct (session_state a !! last_summary_key) as [s|] eqn:E.
  - cbv iota. rewrite E. split; [eexists; reflexivity | reflexivity].
  - cbv iota. unfold set_last_summary, with_session. cbn [session_state].
    rewrite lookup_insert_eq. split; [eexists; reflexivity | reflexivity].
Qed.

(** X5: after a run of the script the session always holds a
    [last_summary]; whenever the summarise button reports something
    (warning or error) the stored summary is the one from before, a run that
    reports nothing stores a summary that is not empty, and so a summary
    once on the page is never taken away by a later run, whatever is typed
    or clicked. *)
Theorem summary_never_lost (user_text : str) (summarize_clicked download_clicked : bool)
    (a : App) :
  is_Some (session_state (snd (script user_text summarize_clicked download_clicked a))
             !! last_summary_key) /\
  (fst (summarize_branch (get_api_key a) user_text a) <> [] ->
   session_state (snd (summarize_branch (get_api_key a) user_text a)) = session_state a) /\
  (fst (summarize_branch (get_api_key a) user_text a) = [] ->
   last_summary (snd (summarize_branch (get_api_key a) user_text a)) <> []) /\
  (last_summary a <> [] ->
   last_summary (snd (script user_text summarize_clicked download_clicked a)) <> []).
Proof.
  assert (Hkey : get_api_key (init_session a) = get_api_key a).
  { unfold init_session. destruct (session_state a !! last_summary_key); reflexivity. }
  destruct (init_session_present a) as [Hp Hl].
  assert (Hscript :
    session_state (snd (script user_text summarize_clicked download_clicked a))
    = session_state (snd (if summarize_clicked
                          then summarize_branch (get_api_key a) user_text (init_session a)
                          else ([], init_session a)))).
  { unfold script.
    destruct (if summarize_clicked
              then summarize_branch (get_api_key a) user_text (init_session a)
              else ([], init_session a)) as [first a1].
    pose proof (summary_section_session download_clicked a1) as H.
    destruct (summary_section download_clicked a1) as [second a2]. exact H. }
  split; [|split; [|split]].
  - rewrite Hscript. destruct summarize_clicked; [|exact Hp].
    destruct (summarize_branch_cases (get_api_key a) user_text (init_session a))
      as [[msg E]|[(f & a' & E & Hs)|(a' & E & Hne)]]; rewrite E; cbn [snd].
    + exact Hp.
    + rewrite Hs. exact Hp.
    + unfold last_summary in Hne.
      destruct (session_state a' !! last_summary_key) eqn:E';
        [eexists; reflexivity | destruct (Hne eq_refl)].
  - destruct (summarize_branch_cases (get_api_key a) user_text a)
      as [[msg E]|[(f & a' & E & Hs)|(a' & E & Hne)]]; rewrite E; cbn [fst snd];
      [reflexivity | intros _; exact Hs | congruence].
  - destruct (summarize_branch_cases (get_api_key a) user_text a)
      as [[msg E]|[(f & a' & E & Hs)|(a' & E & Hne)]]; rewrite E; cbn [fst snd];
      [discriminate | discriminate | intros _; exact Hne].
  - intros Hne. rewrite <- Hl in Hne.
    rewrite (last_summary_ext _ _ Hscript).
    destruct summarize_clicked; [|exact Hne].
    destruct (summarize_branch_cases (get_api_key a) user_text (init_session a))
      as [[msg E]|[(f & a' & E & Hs)|(a' & E & Hne')]]; rewrite E; cbn [snd].
    + exact Hne.
    + rewrite (last_summary_ext _ _ Hs). exact Hne.
    + exact Hne'.
Qed.

Lemma summary_never_lost_witness :
  last_summary bare_app <> [] /\
  last_summary (snd (script scenario_text true true bare_app)) <> [].
Proof.
  assert (H : last_summary bare_app <> []) by (vm_compute; discriminate).
  split; [exact H|].
  exact (proj2 (proj2 (proj2 (summary_never_lost scenario_text true true bare_app))) H).
Defined.

(** ** The export button *)

(** X6: when the export succeeds, the download that the page offers is the
    very file that the call wrote, under the name that the call returned,
    and its card holds the converted stored summary; reading the file back
    never fails with a missing file, in any run. *)
Theorem export_offers_written_file (download_clicked : bool) (a : App) :
  (st_error_with export_failed FileNotFoundError
   ∉ fst (summary_section download_clicked a)) /\
  (forall fname w',
      last_summary a <> [] ->
      save_summary_as_pdf (last_summary a) (world a) = (Return fname, w') ->
      exists page,
        fname = filename_of (first_reading (world a)) /\
        summary_section true a
        = ([st_markdown (summary_card (last_summary a));
            st_download_button
              {| pdf_template := template page fname;
                 pdf_story := story (second_reading (world a)) (last_summary a) |}
              fname (py "application/pdf")],
           with_world w' a) /\
        story (second_reading (world a)) (last_summary a) !! 4
        = Some (card_of (Para (convert_markdown_to_html (last_summary a)) body_style))).
Proof.
  split.
  - unfold summary_section. destruct (truthy (last_summary a)); [|apply not_elem_of_nil].
    destruct download_clicked.
    2:{ cbn [fst]. intros H. apply list_elem_of_singleton in H. discriminate. }
    destruct (save_summary_as_pdf (last_summary a) (world a)) as [[fname|e] w] eqn:E.
    + apply save_returns in E as (page & _ & _ & _ & -> & ->).
      rewrite after_save_lookup. cbn [fst]. intros H.
      apply elem_of_cons in H as [H|H]; [discriminate|].
      apply list_elem_of_singleton in H. discriminate.
    + cbn [fst]. intros H. apply elem_of_cons in H as [H|H]; [discriminate|].
      apply list_elem_of_singleton in H. discriminate.
  - intros fname w' Hne E. apply truthy_nonempty in Hne.
    unfold summary_section. rewrite Hne, E.
    apply save_returns in E as (page & _ & _ & _ & -> & ->).
    exists page. split; [reflexivity|]. rewrite after_save_lookup.
    split; reflexivity.
Qed.

Lemma export_offers_written_file_witness :
  let a := summarised_app in
  let fname := filename_of new_years_eve in
  let w' := after_save (world a) A4_sheet scenario_text in
  last_summary a <> [] /\
  save_summary_as_pdf (last_summary a) (world a) = (Return fname, w') /\
  exists page,
    fname = filename_of (first_reading (world a)) /\
    summary_section true a
    = ([st_markdown (summary_card (last_summary a));
        st_download_button
          {| pdf_template := template page fname;
             pdf_story := story (second_reading (world a)) (last_summary a) |}
          fname (py "application/pdf")],
       with_world w' a) /\
    story (second_reading (world a)) (last_summary a) !! 4
    = Some (card_of (Para (convert_markdown_to_html (last_summary a)) body_style)).
Proof.
  intros a fname w'.
  assert (Hne : last_summary a <> []) by (vm_compute; discriminate).
  assert (E : save_summary_as_pdf (last_summary a) (world a) = (Return fname, w'))
    by (vm_compute; reflexivity).
  split; [exact Hne|]. split; [exact E|].
  exact (proj2 (export_offers_written_file true a) fname w' Hne E).
Defined.

(** X7: with ReportLab missing, a click on the export button shows the
    summary and "PDF export failed: " with the [RuntimeError] that says so;
    no download is offered, the clock is not read and the disk is as it
    was. *)
Theorem export_without_reportlab (a : App) :
  last_summary a <> [] ->
  A4 (world a) = None ->
  summary_section true a
  = ([st_markdown (summary_card (last_summary a));
      st_error_with export_failed (Raised (RuntimeError unavailable_message))],
     with_world (world a) a) /\
  failure_text (Raised (RuntimeError unavailable_message)) = Some unavailable_message /\
  world (snd (summary_section true a)) = world a.
Proof.
  intros Hne HA. apply truthy_nonempty in Hne.
  unfold summary_section. rewrite Hne, (save_unavailable _ _ HA).
  split; [reflexivity|]. split; reflexivity.
Qed.

Lemma export_without_reportlab_witness :
  last_summary bare_app <> [] /\
  A4 (world bare_app) = None /\
  summary_section true bare_app
  = ([st_markdown (summary_card (last_summary bare_app));
      st_error_with export_failed (Raised (RuntimeError unavailable_message))],
     with_world (world bare_app) bare_app) /\
  failure_text (Raised (RuntimeError unavailable_message)) = Some unavailable_message /\
  world (snd (summary_section true bare_app)) = world bare_app.
Proof.
  assert (Hne : last_summary bare_app <> []) by (vm_compute; discriminate).
  assert (HA : A4 (world bare_app) = None) by reflexivity.
  split; [exact Hne|]. split; [exact HA|].
  exact (export_without_reportlab bare_app Hne HA).
Defined.

(** ** What a call to the renderer leaves alone *)

(** X8: a finished call writes one file and nothing else: every other name
    on the disk holds what it held, a file that already had the name is
    replaced, and the page size, the clock and ReportLab are as before. *)
Theorem save_touches_one_file (w : World) (text fname : str) (w' : World) :
  save_summary_as_pdf text w = (Return fname, w') ->
  (forall name, name <> fname -> disk w' !! name = disk w !! name) /\
  (exists file, disk w' !! fname = Some file /\
                pdf_story file = story (second_reading w) text) /\
  A4 w' = A4 w /\ clock w' = clock w /\
  paragraph_ok w' = paragraph_ok w /\ build_ok w' = build_ok w.
Proof.
  intros H. apply save_returns in H as (page & _ & _ & _ & -> & ->).
  split.
  - intros name Hne. unfold after_save, write_file. cbn [disk tick].
    apply lookup_insert_ne. congruence.
  - split; [eexists; split; [apply after_save_lookup | reflexivity]|].
    repeat split; reflexivity.
Qed.

Lemma save_touches_one_file_witness :
  let w := friendly_world new_years_eve new_year in
  let w' := after_save w A4_sheet scenario_text in
  let fname := filename_of new_years_eve in
  save_summary_as_pdf scenario_text w = (Return fname, w') /\
  (forall name, name <> fname -> disk w' !! name = disk w !! name) /\
  (exists file, disk w' !! fname = Some file /\
                pdf_story file = story (second_reading w) scenario_text) /\
  A4 w' = A4 w /\ clock w' = clock w /\
  paragraph_ok w' = paragraph_ok w /\ build_ok w' = build_ok w.
Proof.
  intros w w' fname.
  assert (H : save_summary_as_pdf scenario_text w = (Return fname, w'))
    by (vm_compute; reflexivity).
  split; [exact H|]. exact (save_touches_one_file w scenario_text fname w' H).
Defined.

(** X9: when ReportLab refuses one of the four paragraphs (the card, the
    title, the subtitle or the footer), the call raises ReportLab's error
    before any build: the disk is as it was, and one or two clock readings
    were taken. *)
Theorem save_paragraph_refused (w : World) (page : pagesize) (text : str) :
  A4 w = Some page ->
  ~ Forall (fun p => paragraph_ok w p = true) (paragraphs (second_reading w) text) ->
  exists w',
    save_summary_as_pdf text w = (Raise ReportLabError, w') /\
    disk w' = disk w /\
    (reads w' = S (reads w) \/ reads w' = S (S (reads w))).
Proof.
  intros HA Hp. rewrite save_unfold, HA.
  destruct (paragraph_ok w (convert_markdown_to_html text)) eqn:H1;
    [|eexists; repeat split; auto].
  destruct (paragraph_ok w title_text) eqn:H2; [|eexists; repeat split; auto].
  destruct (paragraph_ok w subtitle_text) eqn:H3; [|eexists; repeat split; auto].
  destruct (paragraph_ok w (footer_text (second_reading w) text)) eqn:H4;
    [|eexists; repeat split; auto].
  destruct Hp. unfold paragraphs. repeat constructor; assumption.
Qed.

Lemma save_paragraph_refused_witness :
  let w := picky_world new_year in
  A4 w = Some A4_sheet /\
  ~ Forall (fun p => paragraph_ok w p = true) (paragraphs (second_reading w) scenario_text) /\
  exists w',
    save_summary_as_pdf scenario_text w = (Raise ReportLabError, w') /\
    disk w' = disk w /\
    (reads w' = S (reads w) \/ reads w' = S (S (reads w))).
Proof.
  intros w.
  assert (HA : A4 w = Some A4_sheet) by reflexivity.
  assert (Hp : ~ Forall (fun p => paragraph_ok w p = true)
                 (paragraphs (second_reading w) scenario_text)).
  { intros H. apply Forall_cons in H as [H _]. discriminate. }
  split; [exact HA|]. split; [exact Hp|].
  exact (save_paragraph_refused w A4_sheet scenario_text HA Hp).
Defined.

(** ** One span of emphasis in a text *)

Lemma re_sub_skip a d' open close pre s :
  a ∉ pre -> re_sub (a :: d') open close (pre ++ s) = pre ++ re_sub (a :: d') open close s.
Proof.
  induction pre as [|c pre IH]; intros H; [reflexivity|].
  apply not_elem_of_cons in H as [Hc H].
  rewrite <- !app_comm_cons, re_sub_miss;
    [rewrite IH by exact H; reflexivity | discriminate | apply match_at_head; congruence].
Qed.

Lemma bold_match_count text x after :
  match_at bold_delim text = Some (x, after) -> 4 <= count asterisk text.
Proof.
  intros H. apply match_at_Some in H as [-> _]. rewrite !count_app.
  change (count asterisk bold_delim) with 2. lia.
Qed.

Lemma bold_pass_few text : count asterisk text <= 3 -> bold_pass text = text.
Proof.
  induction text as [|c rest IH]; intros Hc; [reflexivity|].
  destruct (match_at bold_delim (c :: rest)) as [[x after]|] eqn:E.
  - apply bold_match_count in E. lia.
  - unfold bold_pass. rewrite re_sub_miss by (exact E || discriminate).
    fold (bold_pass rest). rewrite IH; [reflexivity|].
    change (count asterisk (c :: rest))
      with ((if N.eqb c asterisk then 1 else 0) + count asterisk rest) in Hc. lia.
Qed.

Lemma convert_no_asterisk s :
  asterisk ∉ s -> convert_markdown_to_html s = bullet_pass (break_pass s).
Proof.
  intros H. unfold convert_markdown_to_html, bold_pass, italic_pass, bold_delim, italic_delim.
  change (py "**") with [asterisk; asterisk]. change (py "*") with [asterisk].
  rewrite (re_sub_absent asterisk [asterisk] b_open b_close s H).
  rewrite (re_sub_absent asterisk [] i_open i_close s H). reflexivity.
Qed.

Lemma plain_app s t :
  bullet_pass (break_pass (s ++ t))
  = bullet_pass (break_pass s) ++ bullet_pass (break_pass t).
Proof. unfold bullet_pass, break_pass. rewrite !replace_app. reflexivity. Qed.

(** X10: one emphasised span in a text that holds no other asterisk comes
    out between its tags, with the text before and after converted on its
    own: for [X] with no asterisk and no line break,
    convert(pre + "*" + X + "*" + post) is
    convert(pre) + "<i>" + convert(X) + "</i>" + convert(post), and the same
    with [**] and the bold tags. *)
Theorem span_in_context (pre X post : str) :
  asterisk ∉ pre -> asterisk ∉ X -> newline ∉ X -> asterisk ∉ post ->
  convert_markdown_to_html (pre ++ italic_delim ++ X ++ italic_delim ++ post)
  = convert_markdown_to_html pre ++ i_open ++ convert_markdown_to_html X ++ i_close ++
    convert_markdown_to_html post /\
  convert_markdown_to_html (pre ++ bold_delim ++ X ++ bold_delim ++ post)
  = convert_markdown_to_html pre ++ b_open ++ convert_markdown_to_html X ++ b_close ++
    convert_markdown_to_html post.
Proof.
  intros Hpre HX Hn Hpost.
  assert (Hc0 : forall s, asterisk ∉ s -> count asterisk s = 0)
    by (intros s; apply count_zero).
  rewrite (convert_no_asterisk pre Hpre), (convert_no_asterisk X HX),
    (convert_no_asterisk post Hpost).
  assert (HbX : break_pass X = X) by (apply replace_absent; exact Hn).
  rewrite HbX. split.
  - assert (Hb : bold_pass (pre ++ italic_delim ++ X ++ italic_delim ++ post)
                 = pre ++ italic_delim ++ X ++ italic_delim ++ post).
    { apply bold_pass_few. rewrite !count_app, (Hc0 _ Hpre), (Hc0 _ HX), (Hc0 _ Hpost).
      change (count asterisk italic_delim) with 1. lia. }
    assert (Hi : italic_pass (pre ++ italic_delim ++ X ++ italic_delim ++ post)
                 = pre ++ i_open ++ X ++ i_close ++ post).
    { unfold italic_pass. change italic_delim with [asterisk].
      rewrite re_sub_skip by exact Hpre. f_equal.
      rewrite (re_sub_hit [asterisk] i_open i_close (delim_nonempty _ _)
                 ([asterisk] ++ X ++ [asterisk] ++ post) X post);
        [|discriminate | apply (match_at_app asterisk []); assumption].
      rewrite (re_sub_absent asterisk [] i_open i_close post Hpost). reflexivity. }
    unfold convert_markdown_to_html. rewrite Hb, Hi.
    rewrite !plain_app. rewrite HbX. reflexivity.
  - assert (Hb : bold_pass (pre ++ bold_delim ++ X ++ bold_delim ++ post)
                 = pre ++ b_open ++ X ++ b_close ++ post).
    { unfold bold_pass. change bold_delim with [asterisk; asterisk].
      rewrite re_sub_skip by exact Hpre. f_equal.
      rewrite (re_sub_hit [asterisk; asterisk] b_open b_close (delim_nonempty _ _)
                 ([asterisk; asterisk] ++ X ++ [asterisk; asterisk] ++ post) X post);
        [|discriminate | apply (match_at_app asterisk [asterisk]); assumption].
      rewrite (re_sub_absent asterisk [asterisk] b_open b_close post Hpost). reflexivity. }
    assert (Hi : italic_pass (pre ++ b_open ++ X ++ b_close ++ post)
                 = pre ++ b_open ++ X ++ b_close ++ post).
    { unfold italic_pass, italic_delim. change (py "*") with [asterisk].
      apply re_sub_absent. rewrite !not_elem_of_app.
      repeat split; try assumption; absent. }
    unfold convert_markdown_to_html. rewrite Hb, Hi.
    rewrite !plain_app. rewrite HbX. reflexivity.
Qed.

Lemma span_in_context_witness :
  let pre := py "a" ++ [newline] in
  let post := [bullet] ++ py " c" in
  (asterisk ∉ pre) /\ (asterisk ∉ bulleted_words) /\ (newline ∉ bulleted_words) /\
  (asterisk ∉ post) /\
  convert_markdown_to_html (pre ++ italic_delim ++ bulleted_words ++ italic_delim ++ post)
  = py "a<br/><i>Key &bull; Point</i>&bull; c" /\
  convert_markdown_to_html (pre ++ bold_delim ++ bulleted_words ++ bold_delim ++ post)
  = py "a<br/><b>Key &bull; Point</b>&bull; c".
Proof.
  intros pre post.
  assert (H1 : asterisk ∉ pre) by absent.
  assert (H2 : asterisk ∉ bulleted_words) by absent.
  assert (H3 : newline ∉ bulleted_words) by absent.
  assert (H4 : asterisk ∉ post) by absent.
  split; [exact H1|]. split; [exact H2|]. split; [exact H3|]. split; [exact H4|].
  destruct (span_in_context pre bulleted_words post H1 H2 H3 H4) as [Hi Hb].
  split; [rewrite Hi | rewrite Hb]; vm_compute; reflexivity.
Defined.

(** ** The summary on the page and in the file *)

(** X11: the summary on the page has its line breaks written as [<br/>] and
    nothing else rewritten: it holds no line break and as many asterisks and
    bullets as the stored summary.  So the page shows emphasis markers as
    typed where the file's card has them converted; for a summary with at
    most one asterisk and no bullet, the page's card holds exactly the
    markup of the file's card. *)
Theorem page_card_markup (summary : str) :
  summary_card summary
  = py "<div class='card summary-card'>" ++ break_pass summary ++ py "</div>" /\
  (newline ∉ summary_card summary) /\
  count asterisk (summary_card summary) = count asterisk summary /\
  count bullet (summary_card summary) = count bullet summary /\
  (count asterisk summary <= 1 -> bullet ∉ summary ->
   break_pass summary = convert_markdown_to_html summary).
Proof.
  split; [reflexivity|].
  assert (Hn : newline ∉ break_pass summary).
  { unfold break_pass. apply replace_clears. absent. }
  split; [|split; [|split]].
  - unfold summary_card. fold br_tag. fold (break_pass summary).
    rewrite !not_elem_of_app. repeat split; [absent | exact Hn | absent].
  - unfold summary_card. rewrite !count_app. fold br_tag.
    rewrite count_replace; [|discriminate | absent].
    change (count asterisk (py "<div class='card summary-card'>")) with 0.
    change (count asterisk (py "</div>")) with 0. lia.
  - unfold summary_card. rewrite !count_app. fold br_tag.
    rewrite count_replace; [|discriminate | absent].
    change (count bullet (py "<div class='card summary-card'>")) with 0.
    change (count bullet (py "</div>")) with 0. lia.
  - intros Hc Hb. unfold convert_markdown_to_html, bold_pass, italic_pass,
      bold_delim, italic_delim.
    change (py "**") with [asterisk; asterisk]. change (py "*") with [asterisk].
    rewrite (re_sub_few asterisk [asterisk] b_open b_close summary Hc).
    rewrite (re_sub_few asterisk [] i_open i_close summary Hc).
    unfold bullet_pass. symmetry. apply replace_absent.
    unfold break_pass. apply replace_keeps_out; [exact Hb | absent].
Qed.

(** ** File names *)

Lemma uint_chars_inj d d' : uint_chars d = uint_chars d' -> d = d'.
Proof.
  revert d'. induction d; intros d' H; destruct d'; try discriminate H;
    try reflexivity; injection H as H; f_equal; apply IHd; exact H.
Qed.

Lemma repr_nat_inj n m : repr_nat n = repr_nat m -> n = m.
Proof.
  intros H. apply uint_chars_inj in H. apply DecimalNat.Unsigned.to_uint_inj. exact H.
Qed.

Lemma below_forallb (P : nat -> bool) start len n :
  forallb P (seq start len) = true -> start <= n < start + len -> P n = true.
Proof.
  intros H Hn. rewrite forallb_forall in H. apply H. apply in_seq. exact Hn.
Qed.

Lemma zero_padded_two n :
  n < 100 -> length (zero_padded 2 n) = 2 /\ digits_value (zero_padded 2 n) = n.
Proof.
  intros Hn.
  assert (H : forallb (fun n => (length (zero_padded 2 n) =? 2)
                                && (digits_value (zero_padded 2 n) =? n))
                (seq 0 100) = true) by (vm_compute; reflexivity).
  apply (below_forallb _ 0 100 n) in H; [|lia].
  apply andb_true_iff in H as [H1 H2].
  apply Nat.eqb_eq in H1. apply Nat.eqb_eq in H2. auto.
Qed.

Lemma year_four_digits y : 1000 <= y < 10 * 1000 -> length (repr_nat y) = 4.
Proof.
  intros Hy.
  assert (H : forallb (fun y => length (repr_nat y) =? 4) (seq 1000 (9 * 1000)) = true)
    by (vm_compute; reflexivity).
  apply (below_forallb _ 1000 (9 * 1000) y) in H; [|lia].
  apply Nat.eqb_eq in H. exact H.
Qed.

Lemma zero_padded_inj n m :
  n < 100 -> m < 100 -> zero_padded 2 n = zero_padded 2 m -> n = m.
Proof.
  intros Hn Hm H. destruct (zero_padded_two n Hn) as [_ <-].
  destruct (zero_padded_two m Hm) as [_ <-]. rewrite H. reflexivity.
Qed.

Lemma strftime_file_eq t :
  strftime (py "%Y%m%d_%H%M%S") t
  = repr_nat (year t) ++ zero_padded 2 (month t) ++ zero_padded 2 (day t) ++
    95%N :: zero_padded 2 (hour t) ++ zero_padded 2 (minute t) ++
    zero_padded 2 (second t) ++ [].
Proof. reflexivity. Qed.

Lemma filename_of_same_second t u : same_second t u -> filename_of t = filename_of u.
Proof.
  intros (Hy & Hm & Hd & Hh & Hmi & Hs). unfold filename_of.
  rewrite !strftime_file_eq, Hy, Hm, Hd, Hh, Hmi, Hs. reflexivity.
Qed.

Lemma filename_of_inj t u :
  valid_datetime t -> valid_datetime u -> filename_of t = filename_of u -> same_second t u.
Proof.
  intros (Hy & Hm & Hd & Hh & Hmi & Hs) (Hy' & Hm' & Hd' & Hh' & Hmi' & Hs').
  unfold filename_of. intros H. apply app_inv_head in H. apply app_inv_tail in H.
  rewrite !strftime_file_eq in H.
  pose proof (fun n (Hn : n < 100) => proj1 (zero_padded_two n Hn)) as L.
  apply app_inj_1 in H as [Ey H];
    [|rewrite !year_four_digits by assumption; reflexivity].
  apply app_inj_1 in H as [Em H]; [|rewrite !L by lia; reflexivity].
  apply app_inj_1 in H as [Ed H]; [|rewrite !L by lia; reflexivity].
  injection H as H.
  apply app_inj_1 in H as [Eh H]; [|rewrite !L by lia; reflexivity].
  apply app_inj_1 in H as [Emi H]; [|rewrite !L by lia; reflexivity].
  apply app_inj_1 in H as [Es _]; [|rewrite !L by lia; reflexivity].
  repeat split;
    [apply repr_nat_inj; exact Ey | apply zero_padded_inj; [lia | lia | assumption] ..].
Qed.

Lemma filename_digits t :
  valid_datetime t ->
  exists date time,
    filename_of t = py "AI_Summary_" ++ date ++ [95%N] ++ time ++ py ".pdf" /\
    length date = 8 /\ length time = 6 /\
    Forall (fun c => is_digit c = true) date /\
    Forall (fun c => is_digit c = true) time.
Proof.
  intros (Hy & Hm & Hd & Hh & Hmi & Hs).
  pose proof (fun n (Hn : n < 100) => proj1 (zero_padded_two n Hn)) as L.
  exists (repr_nat (year t) ++ zero_padded 2 (month t) ++ zero_padded 2 (day t)),
    (zero_padded 2 (hour t) ++ zero_padded 2 (minute t) ++ zero_padded 2 (second t)).
  split; [|split; [|split; [|split]]].
  - unfold filename_of. rewrite strftime_file_eq, app_nil_r.
    change (95%N :: zero_padded 2 (hour t) ++ zero_padded 2 (minute t) ++
            zero_padded 2 (second t))
      with ([95%N] ++ zero_padded 2 (hour t) ++ zero_padded 2 (minute t) ++
            zero_padded 2 (second t)).
    rewrite <- !app_assoc. reflexivity.
  - rewrite !length_app, !L by lia. rewrite year_four_digits by assumption. reflexivity.
  - rewrite !length_app, !L by lia. reflexivity.
  - rewrite !Forall_app. repeat split; apply Forall_forall; intros c Hc;
      [apply (repr_nat_digits (year t)) | apply (zero_padded_digits 2 (month t))
       | apply (zero_padded_digits 2 (day t))]; exact Hc.
  - rewrite !Forall_app. repeat split; apply Forall_forall; intros c Hc;
      [apply (zero_padded_digits 2 (hour t)) | apply (zero_padded_digits 2 (minute t))
       | apply (zero_padded_digits 2 (second t))]; exact Hc.
Qed.

(** X12: for a reading with a four-digit year the file name is
    "AI_Summary_", eight digits, an underscore, six digits and ".pdf",
    thirty characters in all. *)
Theorem filename_format (t : datetime) :
  valid_datetime t ->
  length (filename_of t) = 30 /\
  exists date time,
    filename_of t = py "AI_Summary_" ++ date ++ [95%N] ++ time ++ py ".pdf" /\
    length date = 8 /\ length time = 6 /\
    Forall (fun c => is_digit c = true) date /\
    Forall (fun c => is_digit c = true) time.
Proof.
  intros Hv. destruct (filename_digits t Hv) as (date & time & E & Hd & Ht & Fd & Ft).
  split; [|exists date, time; auto].
  rewrite E, !length_app, Hd, Ht. reflexivity.
Qed.

Lemma new_year_valid : valid_datetime new_year.
Proof. unfold valid_datetime. cbn. lia. Qed.

Lemma late_in_second_valid : valid_datetime late_in_second.
Proof. unfold valid_datetime. cbn. lia. Qed.

Lemma new_years_eve_valid : valid_datetime new_years_eve.
Proof. unfold valid_datetime. cbn. lia. Qed.

Lemma filename_format_witness :
  valid_datetime new_years_eve /\
  length (filename_of new_years_eve) = 30 /\
  exists date time,
    filename_of new_years_eve = py "AI_Summary_" ++ date ++ [95%N] ++ time ++ py ".pdf" /\
    length date = 8 /\ length time = 6 /\
    Forall (fun c => is_digit c = true) date /\
    Forall (fun c => is_digit c = true) time.
Proof.
  split; [exact new_years_eve_valid|].
  exact (filename_format new_years_eve new_years_eve_valid).
Defined.

(** X13: for readings with a four-digit year, two file names are the same
    exactly when the readings fall in the same second: the name tells the
    second and nothing finer. *)
Theorem filename_per_second (t u : datetime) :
  valid_datetime t -> valid_datetime u ->
  (filename_of t = filename_of u <-> same_second t u).
Proof.
  intros Ht Hu. split; [apply filename_of_inj; assumption | apply filename_of_same_second].
Qed.

Lemma filename_per_second_witness :
  valid_datetime new_year /\ valid_datetime late_in_second /\
  (filename_of new_year = filename_of late_in_second
   <-> same_second new_year late_in_second) /\
  same_second new_year late_in_second /\
  new_year <> late_in_second.
Proof.
  split; [exact new_year_valid|]. split; [exact late_in_second_valid|].
  split; [exact (filename_per_second new_year late_in_second
                   new_year_valid late_in_second_valid)|].
  split; [repeat split | discriminate].
Defined.

(** X14: of two finished exports, one after the other, the second replaces
    the file of the first when both were named in the same second: one file
    is left under the one name, with the second summary; named in different
    seconds, the two files have different names and both are on the disk. *)
Theorem exports_in_one_second (w : World) (text1 text2 n1 n2 : str) (w1 w2 : World) :
  save_summary_as_pdf text1 w = (Return n1, w1) ->
  save_summary_as_pdf text2 w1 = (Return n2, w2) ->
  valid_datetime (first_reading w) -> valid_datetime (first_reading w1) ->
  (same_second (first_reading w) (first_reading w1) ->
   n2 = n1 /\
   exists file, disk w2 !! n1 = Some file /\
                pdf_story file = story (second_reading w1) text2) /\
  (~ same_second (first_reading w) (first_reading w1) ->
   n2 <> n1 /\
   (exists file, disk w2 !! n1 = Some file /\
                 pdf_story file = story (second_reading w) text1) /\
   (exists file, disk w2 !! n2 = Some file /\
                 pdf_story file = story (second_reading w1) text2)).
Proof.
  intros H1 H2 Hv Hv1.
  apply save_returns in H1 as (page1 & _ & _ & _ & -> & E1).
  apply save_returns in H2 as (page2 & _ & _ & _ & -> & ->).
  split.
  - intros Hs. apply filename_of_same_second in Hs. rewrite <- Hs.
    split; [reflexivity|]. eexists. rewrite Hs. split; [apply after_save_lookup|reflexivity].
  - intros Hs.
    assert (Hne : filename_of (first_reading w1) <> filename_of (first_reading w)).
    { intros E. apply Hs. apply filename_of_inj; [assumption | assumption | congruence]. }
    split; [exact Hne|]. split.
    + eexists. split.
      * unfold after_save at 1, write_file. cbn [disk tick].
        rewrite lookup_insert_ne by exact Hne. rewrite E1. apply after_save_lookup.
      * reflexivity.
    + eexists. split; [apply after_save_lookup | reflexivity].
Qed.

Lemma exports_in_one_second_witness :
  let w := clocked_world [new_year; new_year; late_in_second] late_in_second in
  let w1 := after_save w A4_sheet scenario_text in
  let w2 := after_save w1 A4_sheet span_over_break in
  let name := filename_of new_year in
  save_summary_as_pdf scenario_text w = (Return name, w1) /\
  save_summary_as_pdf span_over_break w1 = (Return name, w2) /\
  valid_datetime (first_reading w) /\ valid_datetime (first_reading w1) /\
  same_second (first_reading w) (first_reading w1) /\
  name = name /\
  exists file, disk w2 !! name = Some file /\
               pdf_story file = story (second_reading w1) span_over_break.
Proof.
  intros w w1 w2 name.
  assert (H1 : save_summary_as_pdf scenario_text w = (Return name, w1))
    by (vm_compute; reflexivity).
  assert (H2 : save_summary_as_pdf span_over_break w1 = (Return name, w2))
    by (vm_compute; reflexivity).
  assert (Hs : same_second (first_reading w) (first_reading w1)) by (repeat split).
  split; [exact H1|]. split; [exact H2|].
  split; [exact new_year_valid|]. split; [exact late_in_second_valid|].
  split; [exact Hs|].
  exact (proj1 (exports_in_one_second w scenario_text span_over_break name name w1 w2
                  H1 H2 new_year_valid late_in_second_valid) Hs).
Defined.

(** ** A whole run *)

Lemma summary_section_shows a :
  last_summary a <> [] ->
  summary_section false a = ([st_markdown (summary_card (last_summary a))], a).
Proof.
  intros H. apply truthy_nonempty in H. unfold summary_section. rewrite H. reflexivity.
Qed.

(** X15: in the run in which the summarise button succeeds, the page shows
    the new summary at once: the run reports nothing else, and what it
    shows is the card of the summary it has just stored. *)
Theorem summary_shown_at_once (user_text : str) (a : App) (r : response) :
  length (split user_text) <> 0 ->
  get_api_key a <> [] ->
  genai a = true ->
  generate_content a (SUMMARY_PROMPT ++ user_text) = Some r ->
  exists a',
    script user_text true false a = ([st_markdown (summary_card (last_summary a'))], a') /\
    last_summary a' = match r with
                      | TextIs [] | NoText => no_content
                      | TextIs s => s
                      end /\
    sent a' = sent a ++ [SUMMARY_PROMPT ++ user_text].
Proof.
  intros Hw Hk Hg Hr.
  assert (Hi : genai (init_session a) = genai a /\
               generate_content (init_session a) = generate_content a /\
               sent (init_session a) = sent a).
  { unfold init_session. destruct (session_state a !! last_summary_key); auto. }
  destruct Hi as (Hg' & Hc' & Hs').
  pose proof (summarize_branch_answer (get_api_key a) user_text (init_session a) r Hw Hk)
    as E.
  rewrite Hg', Hc' in E. specialize (E Hg Hr).
  eexists. unfold script. rewrite E.
  rewrite summary_section_shows;
    [|rewrite last_summary_set; apply stored_summary_nonempty].
  split; [reflexivity|]. rewrite last_summary_set.
  split; [destruct r as [[|c s]|]; reflexivity|].
  cbn [sent set_last_summary with_session with_sent with_configured].
  rewrite Hs'. reflexivity.
Qed.

Lemma summary_shown_at_once_witness :
  let a := ready_app (Some (TextIs scenario_text)) in
  length (split span_over_break) <> 0 /\
  get_api_key a <> [] /\
  genai a = true /\
  generate_content a (SUMMARY_PROMPT ++ span_over_break) = Some (TextIs scenario_text) /\
  exists a',
    script span_over_break true false a
    = ([st_markdown (summary_card (last_summary a'))], a') /\
    last_summary a' = scenario_text /\
    sent a' = sent a ++ [SUMMARY_PROMPT ++ span_over_break].
Proof.
  intros a.
  assert (Hw : length (split span_over_break) <> 0) by (vm_compute; discriminate).
  assert (Hk : get_api_key a <> []) by (vm_compute; discriminate).
  assert (Hg : genai a = true) by reflexivity.
  assert (Hr : generate_content a (SUMMARY_PROMPT ++ span_over_break)
               = Some (TextIs scenario_text)) by reflexivity.
  split; [exact Hw|]. split; [exact Hk|]. split; [exact Hg|]. split; [exact Hr|].
  exact (summary_shown_at_once span_over_break a (TextIs scenario_text) Hw Hk Hg Hr).
Defined.

(** ** The length of the converted text *)

Lemma replace_grows old new s :
  2 <= length new -> old ∈ s -> length s < length (replace old new s).
Proof.
  intros Hlen Hin. induction s as [|c s IH]; [apply elem_of_nil in Hin; destruct Hin|].
  cbn [replace]. destruct (N.eqb_spec c old) as [->|Hne].
  - rewrite length_app. pose proof (replace_length old new s) as H.
    cbn [length]. destruct new; [simpl in Hlen; lia|]. specialize (H ltac:(discriminate)). lia.
  - apply elem_of_cons in Hin as [->|Hin]; [congruence|].
    cbn [length]. specialize (IH Hin). lia.
Qed.

(** X16: the converter never shortens a text, and it keeps the length only
    by keeping the text: a text that comes out as long as it went in comes
    out unchanged, with no pattern matched and no line break or bullet in
    it. *)
Theorem convert_length (text : str) :
  length text <= length (convert_markdown_to_html text) /\
  (length (convert_markdown_to_html text) = length text ->
   convert_markdown_to_html text = text /\ (newline ∉ text) /\ (bullet ∉ text)).
Proof.
  pose proof (re_sub_length bold_delim b_open b_close text (delim_nonempty _ _)
                ltac:(vm_compute; lia)) as H1.
  pose proof (re_sub_length italic_delim i_open i_close (bold_pass text)
                (delim_nonempty _ _) ltac:(vm_compute; lia)) as H2.
  pose proof (replace_length newline br_tag (italic_pass (bold_pass text))
                ltac:(discriminate)) as H3.
  pose proof (replace_length bullet bull_entity (break_pass (italic_pass (bold_pass text)))
                ltac:(discriminate)) as H4.
  fold (bold_pass text) in H1. fold (italic_pass (bold_pass text)) in H2.
  fold (break_pass (italic_pass (bold_pass text))) in H3.
  fold (bullet_pass (break_pass (italic_pass (bold_pass text)))) in H4.
  unfold convert_markdown_to_html. split; [lia|]. intros E.
  set (t1 := bold_pass text) in *. set (t2 := italic_pass t1) in *.
  set (t3 := break_pass t2) in *.
  assert (Hb : bullet ∉ t3).
  { intros Hin. pose proof (replace_grows bullet bull_entity t3 ltac:(vm_compute; lia) Hin) as G.
    fold (bullet_pass t3) in G. lia. }
  assert (E4 : bullet_pass t3 = t3) by (apply replace_absent; exact Hb).
  rewrite E4 in E.
  assert (Hn : newline ∉ t2).
  { intros Hin. pose proof (replace_grows newline br_tag t2 ltac:(vm_compute; lia) Hin) as G.
    change (replace newline br_tag t2) with t3 in G. lia. }
  assert (E3 : t3 = t2) by (apply replace_absent; exact Hn).
  rewrite E4, E3 in *.
  assert (L2 : length t2 = length t1) by lia.
  assert (L1 : length t1 = length text) by lia.
  assert (E1 : t1 = text).
  { subst t1. clear -L1. revert L1. unfold bold_pass.
    apply (scan_ind bold_delim (delim_nonempty _ _)
             (fun s => length (re_sub bold_delim b_open b_close s) = length s ->
                       re_sub bold_delim b_open b_close s = s)).
    - reflexivity.
    - intros c rest Em IH. rewrite re_sub_miss by (exact Em || discriminate).
      cbn [length]. intros L. f_equal. apply IH. lia.
    - intros s x after Hne Em _.
      rewrite (re_sub_hit bold_delim b_open b_close (delim_nonempty _ _) s x after Hne Em).
      pose proof (re_sub_length bold_delim b_open b_close after (delim_nonempty _ _)
                    ltac:(vm_compute; lia)) as G.
      apply match_at_Some in Em as [-> _]. rewrite !length_app.
      change (length bold_delim) with 2. change (length b_open) with 3.
      change (length b_close) with 4. lia. }
  assert (E2 : t2 = t1).
  { subst t2. clear -L2. revert L2. generalize t1. unfold italic_pass.
    apply (scan_ind italic_delim (delim_nonempty _ _)
             (fun s => length (re_sub italic_delim i_open i_close s) = length s ->
                       re_sub italic_delim i_open i_close s = s)).
    - reflexivity.
    - intros c rest Em IH. rewrite re_sub_miss by (exact Em || discriminate).
      cbn [length]. intros L. f_equal. apply IH. lia.
    - intros s x after Hne Em _.
      rewrite (re_sub_hit italic_delim i_open i_close (delim_nonempty _ _) s x after Hne Em).
      pose proof (re_sub_length italic_delim i_open i_close after (delim_nonempty _ _)
                    ltac:(vm_compute; lia)) as G.
      apply match_at_Some in Em as [-> _]. rewrite !length_app.
      change (length italic_delim) with 1. change (length i_open) with 3.
      change (length i_close) with 4. lia. }
  rewrite E2, E1 in *. repeat split; assumption.
Qed.

(** * The renderer's claims, on the text of the document *)

(** ** Numbers read back *)

Lemma chars_uint_uint_chars d : chars_uint (uint_chars d) = Some d.
Proof.
  induction d; cbn [uint_chars chars_uint]; [reflexivity | ..];
    rewrite IHd; reflexivity.
Qed.

Lemma read_nat_repr n : read_nat (repr_nat n) = Some n.
Proof.
  unfold read_nat, repr_nat. rewrite chars_uint_uint_chars.
  pose proof (DecimalNat.Unsigned.of_to n) as E.
  destruct (Nat.to_uint n) eqn:Hu; cbn [uint_chars option_map]; try (rewrite E; reflexivity).
  assert (n = 0) by (rewrite <- E; reflexivity). subst n. discriminate Hu.
Qed.

Lemma leading_digits_app ds c rest :
  Forall (fun x => is_digit x = true) ds -> is_digit c = false ->
  leading_digits (ds ++ c :: rest) = ds.
Proof.
  intros Hd Hc. induction Hd as [|x ds Hx _ IH].
  - change ([] ++ c :: rest) with (c :: rest). cbn [leading_digits]. rewrite Hc. reflexivity.
  - rewrite <- app_comm_cons. cbn [leading_digits]. rewrite Hx, IH. reflexivity.
Qed.

Lemma after_marker_eq marker s :
  after_marker marker s =
  match strip_prefix marker s with
  | Some rest => Some rest
  | None => match s with [] => None | _ :: rest => after_marker marker rest end
  end.
Proof. destruct s; reflexivity. Qed.

Lemma after_marker_skip a m' pre s :
  a ∉ pre -> after_marker (a :: m') (pre ++ s) = after_marker (a :: m') s.
Proof.
  induction pre as [|c pre IH]; intros H; [reflexivity|].
  apply not_elem_of_cons in H as [Hc H].
  rewrite <- app_comm_cons, after_marker_eq, strip_prefix_head by congruence.
  apply IH. exact H.
Qed.

(** ** The footer stamp, piece by piece *)

Lemma generated_on_pieces t :
  generated_on t
  = month_name (month t) ++ 32%N :: zero_padded 2 (day t) ++ 44%N :: 32%N ::
    repr_nat (year t) ++ 32%N :: 45%N :: 32%N :: zero_padded 2 (hour12 (hour t)) ++
    58%N :: zero_padded 2 (minute t) ++ 32%N :: directive 112%N t ++ [].
Proof. reflexivity. Qed.

Lemma month_name_letters m c : c ∈ month_name m -> between 65 122 c = true.
Proof.
  do 13 (destruct m as [|m];
         [intros H; vm_compute in H;
          repeat (apply elem_of_cons in H as [->|H]; [reflexivity|]);
          apply elem_of_nil in H; destruct H|]).
  intros H. apply elem_of_nil in H. destruct H.
Qed.

Lemma generated_on_chars t c : c ∈ generated_on t -> stamp_char c = true.
Proof.
  rewrite generated_on_pieces. unfold stamp_char.
  repeat (rewrite elem_of_app || rewrite elem_of_cons).
  intros H.
  repeat match goal with
         | H : _ \/ _ |- _ => destruct H as [H|H]
         end;
    try (subst c; reflexivity);
    try (apply month_name_letters in H; rewrite H; reflexivity);
    try (apply zero_padded_digits in H; rewrite H; apply orb_true_iff; left;
         apply orb_true_iff; left; apply orb_true_iff; left; apply orb_true_iff; left;
         apply orb_true_r);
    try (apply repr_nat_digits in H; rewrite H; apply orb_true_iff; left;
         apply orb_true_iff; left; apply orb_true_iff; left; apply orb_true_iff; left;
         apply orb_true_r).
  - change (directive 112%N t) with (if hour t <? 12 then py "AM" else py "PM") in H.
    destruct (hour t <? 12); vm_compute in H;
      repeat (apply elem_of_cons in H as [->|H]; [reflexivity|]);
      apply elem_of_nil in H; destruct H.
  - apply elem_of_nil in H. destruct H.
Qed.

(** ** The word count in the footer *)

Lemma stamp_no_angle t : 60%N ∉ generated_on t.
Proof. intros H. apply generated_on_chars in H. discriminate H. Qed.

Lemma word_count_field_footer t n :
  word_count_field (footer_with (generated_on t) (repr_nat n)) = Some n.
Proof.
  unfold word_count_field, footer_with.
  change (after_marker word_count_marker (py "<b>Generated on:</b> " ++ ?x))
    with (after_marker word_count_marker x).
  change word_count_marker with (60%N :: py "b>Word Count:</b> ") at 1.
  rewrite after_marker_skip by apply stamp_no_angle.
  change (after_marker (60%N :: py "b>Word Count:</b> ") (py "  |  " ++ ?x))
    with (after_marker word_count_marker x).
  rewrite after_marker_eq. fold word_count_marker. rewrite strip_prefix_app.
  change (py "<br/>" ++ ?x) with (60%N :: py "br/>" ++ x).
  rewrite leading_digits_app;
    [apply read_nat_repr | apply Forall_forall; apply repr_nat_digits | reflexivity].
Qed.

(** C3: in the file that a finished call leaves, the last block is the
    footer paragraph, and its text is "<b>Generated on:</b> ", the stamp,
    "  |  <b>Word Count:</b> ", the decimal digits of
    [len(summary_text.split())] and the closing line: the number read back
    after "Word Count:" is the number of words of the raw summary text, which
    is the number of its whitespace-delimited tokens; three for
    "Hello   world\nfoo".  The count is of the raw text: the scenario text
    has nine words and its converted form eight. *)
Theorem footer_word_count (w : World) (text : str) (fname : str) (w' : World) :
  save_summary_as_pdf text w = (Return fname, w') ->
  (exists file footer,
      disk w' !! fname = Some file /\
      last (pdf_story file) = Some (Para footer footer_style) /\
      footer
      = py "<b>Generated on:</b> " ++
        strftime (py "%B %d, %Y - %I:%M %p") (second_reading w) ++
        py "  |  " ++ py "<b>Word Count:</b> " ++ repr_nat (length (split text)) ++
        py "<br/>" ++ py "<font color='#9CA3AF'>Made with " ++ [10084%N; 65039%N] ++
        py " using Streamlit & Gemini</font>" /\
      word_count_field footer = Some (length (split text))) /\
  length (split text) = whitespace_delimited_tokens text /\
  word_count_field
    (footer_text new_year (py "Hello   world" ++ [newline] ++ py "foo")) = Some 3 /\
  length (split scenario_text) = 9 /\
  length (split (convert_markdown_to_html scenario_text)) = 8.
Proof.
  intros H. apply save_returns in H as (page & _ & _ & _ & -> & ->).
  split; [|split; [apply split_length | split; [|split]; vm_compute; reflexivity]].
  eexists _, _. split; [apply after_save_lookup|].
  split; [apply story_last|]. split; [reflexivity|].
  apply word_count_field_footer.
Qed.

Lemma footer_word_count_witness :
  let w := friendly_world new_years_eve new_year in
  let text := py "Hello   world" ++ [newline] ++ py "foo" in
  let fname := filename_of new_years_eve in
  let w' := after_save w A4_sheet text in
  save_summary_as_pdf text w = (Return fname, w') /\
  exists file footer,
    disk w' !! fname = Some file /\
    last (pdf_story file) = Some (Para footer footer_style) /\
    footer
    = py "<b>Generated on:</b> January 01, 2025 - 12:00 AM  |  <b>Word Count:</b> 3<br/>" ++
      py "<font color='#9CA3AF'>Made with " ++ [10084%N; 65039%N] ++
      py " using Streamlit & Gemini</font>" /\
    word_count_field footer = Some 3.
Proof.
  intros w text fname w'.
  assert (H : save_summary_as_pdf text w = (Return fname, w')) by (vm_compute; reflexivity).
  split; [exact H|].
  destruct (footer_word_count w text fname w' H) as [(file & footer & H1 & H2 & H3 & H4) _].
  exists file, footer. split; [exact H1|]. split; [exact H2|].
  split; [rewrite H3; vm_compute; reflexivity | rewrite H4; vm_compute; reflexivity].
Defined.

(** ** What the two stamps tell *)

Lemma month_name_inj m n :
  1 <= m <= 12 -> 1 <= n <= 12 -> month_name m = month_name n -> m = n.
Proof.
  intros Hm Hn E.
  assert (H : forallb (fun a => forallb (fun b =>
                implb (bool_decide (month_name a = month_name b)) (a =? b))
                (seq 1 12)) (seq 1 12) = true) by (vm_compute; reflexivity).
  apply (below_forallb _ 1 12 m) in H; [|lia].
  apply (below_forallb _ 1 12 n) in H; [|lia]. cbv beta in H.
  rewrite (bool_decide_eq_true_2 _ E) in H. apply Nat.eqb_eq in H. exact H.
Qed.

Lemma hour12_small h : hour12 h < 100.
Proof.
  unfold hour12. pose proof (Nat.mod_upper_bound h 12 ltac:(lia)) as H.
  destruct (h mod 12); lia.
Qed.

Lemma hour_from_clock h k :
  h < 24 -> k < 24 -> hour12 h = hour12 k -> (h <? 12) = (k <? 12) -> h = k.
Proof.
  intros Hh Hk E1 E2.
  assert (H : forallb (fun a => forallb (fun b =>
                implb ((hour12 a =? hour12 b) && eqb (a <? 12) (b <? 12)) (a =? b))
                (seq 0 24)) (seq 0 24) = true) by (vm_compute; reflexivity).
  apply (below_forallb _ 0 24 h) in H; [|lia].
  apply (below_forallb _ 0 24 k) in H; [|lia]. cbv beta in H.
  rewrite E1, E2, Nat.eqb_refl, eqb_reflx in H. apply Nat.eqb_eq in H. exact H.
Qed.

Lemma meridiem_inj (a b : bool) :
  (if a then py "AM" else py "PM") = (if b then py "AM" else py "PM") -> a = b.
Proof. destruct a, b; intros H; [reflexivity | discriminate H | discriminate H | reflexivity]. Qed.

Lemma generated_on_inj t u :
  valid_datetime t -> valid_datetime u -> generated_on t = generated_on u -> same_minute t u.
Proof.
  intros (Hy & Hm & Hd & Hh & Hmi & Hs) (Hy' & Hm' & Hd' & Hh' & Hmi' & Hs').
  rewrite !generated_on_pieces. intros H.
  pose proof (fun n (Hn : n < 100) => proj1 (zero_padded_two n Hn)) as L.
  pose proof (hour12_small (hour t)) as B. pose proof (hour12_small (hour u)) as B'.
  apply not_elem_of_app_cons_inv_l in H as (Em & _ & H);
    [|apply month_name_no_space | apply month_name_no_space].
  apply app_inj_1 in H as [Ed H]; [|rewrite !L by lia; reflexivity].
  injection H as H.
  apply not_elem_of_app_cons_inv_l in H as (Ey & _ & H);
    [| intros Hin; apply repr_nat_digits in Hin; discriminate Hin
     | intros Hin; apply repr_nat_digits in Hin; discriminate Hin].
  injection H as H.
  apply app_inj_1 in H as [Eh H]; [|rewrite !L by assumption; reflexivity].
  injection H as H.
  apply app_inj_1 in H as [Emi H]; [|rewrite !L by lia; reflexivity].
  injection H as H. rewrite !app_nil_r in H.
  change (directive 112%N t) with (if hour t <? 12 then py "AM" else py "PM") in H.
  change (directive 112%N u) with (if hour u <? 12 then py "AM" else py "PM") in H.
  apply meridiem_inj in H.
  apply zero_padded_inj in Eh; [|assumption|assumption].
  repeat split.
  - apply repr_nat_inj. exact Ey.
  - apply month_name_inj; assumption.
  - apply zero_padded_inj; [lia | lia | exact Ed].
  - apply hour_from_clock; assumption.
  - apply zero_padded_inj; [lia | lia | exact Emi].
Qed.

Lemma later_in_minute_valid : valid_datetime later_in_minute.
Proof. unfold valid_datetime. cbn. lia. Qed.

(** ** The two clock readings of a call *)

(** C1, amended: a finished call reads the clock twice.  The file name is
    "AI_Summary_", the first reading as [%Y%m%d_%H%M%S] and ".pdf", and
    tells that reading to the second: it is the name of exactly the readings
    in the same second.  The footer of the file begins with
    "<b>Generated on:</b> " and the second reading as
    [%B %d, %Y - %I:%M %p], which tells that reading to the minute: it is
    the stamp of exactly the readings in the same minute, so the footer
    shows the minute of the file name exactly when the two readings fall in
    one minute.  Another finished call on the same text leaves the same
    blocks and the same footer but for the stamp, in a document that differs
    by its name only; with the same two readings it leaves the same name and
    the same file. *)
Theorem render_clock_readings (w : World) (text fname : str) (w' : World)
    (v : World) (vname : str) (v' : World) :
  save_summary_as_pdf text w = (Return fname, w') ->
  save_summary_as_pdf text v = (Return vname, v') ->
  valid_datetime (first_reading w) -> valid_datetime (second_reading w) ->
  reads w' = S (S (reads w)) /\
  fname = py "AI_Summary_" ++ strftime (py "%Y%m%d_%H%M%S") (first_reading w) ++ py ".pdf" /\
  (forall t, valid_datetime t ->
     (py "AI_Summary_" ++ strftime (py "%Y%m%d_%H%M%S") t ++ py ".pdf" = fname
      <-> same_second t (first_reading w))) /\
  exists file vfile stamp vstamp,
    disk w' !! fname = Some file /\
    disk v' !! vname = Some vfile /\
    stamp = strftime (py "%B %d, %Y - %I:%M %p") (second_reading w) /\
    vstamp = strftime (py "%B %d, %Y - %I:%M %p") (second_reading v) /\
    (forall t, valid_datetime t ->
       (strftime (py "%B %d, %Y - %I:%M %p") t = stamp
        <-> same_minute t (second_reading w))) /\
    (exists blocks closing,
        pdf_story file
        = blocks ++ [Para (py "<b>Generated on:</b> " ++ stamp ++ closing) footer_style] /\
        pdf_story vfile
        = blocks ++ [Para (py "<b>Generated on:</b> " ++ vstamp ++ closing) footer_style]) /\
    (exists page,
        pdf_template file = template page fname /\
        pdf_template vfile = template page vname) /\
    (first_reading v = first_reading w -> second_reading v = second_reading w ->
     vname = fname /\ vfile = file).
Proof.
  intros Hw Hv V1 V2.
  apply save_returns in Hw as (page & _ & _ & _ & -> & ->).
  apply save_returns in Hv as (page' & _ & _ & _ & -> & ->).
  split; [reflexivity|]. split; [reflexivity|]. split.
  { intros t Vt. fold (filename_of t). split.
    - intros E. apply filename_of_inj; assumption.
    - apply filename_of_same_second. }
  eexists _, _, _, _.
  split; [apply after_save_lookup|]. split; [apply after_save_lookup|].
  split; [reflexivity|]. split; [reflexivity|]. split.
  { intros t Vt. fold (generated_on t). fold (generated_on (second_reading w)). split.
    - intros E. apply generated_on_inj; assumption.
    - apply generated_on_same_minute. }
  split.
  { exists (blocks_above_footer text),
      (py "  |  " ++ py "<b>Word Count:</b> " ++ repr_nat (length (split text)) ++
       py "<br/>" ++ py "<font color='#9CA3AF'>Made with " ++ [10084%N; 65039%N] ++
       py " using Streamlit & Gemini</font>").
    split; reflexivity. }
  split.
  { exists page. destruct page, page'. split; reflexivity. }
  intros E1 E2. rewrite E1, E2. destruct page, page'. split; reflexivity.
Qed.

Lemma render_clock_readings_witness :
  let w := clocked_world [new_year; later_in_minute] later_in_minute in
  let v := after_save
             (clocked_world [new_years_eve; new_years_eve; new_year; later_in_minute]
                later_in_minute) A4_sheet span_over_break in
  let fname := py "AI_Summary_20250101_000000.pdf" in
  let w' := after_save w A4_sheet scenario_text in
  let v' := after_save v A4_sheet scenario_text in
  save_summary_as_pdf scenario_text w = (Return fname, w') /\
  save_summary_as_pdf scenario_text v = (Return fname, v') /\
  valid_datetime (first_reading w) /\ valid_datetime (second_reading w) /\
  first_reading w <> second_reading w /\
  reads v <> reads w /\
  reads w' = S (S (reads w)) /\
  (same_second later_in_minute (first_reading w) -> False) /\
  same_minute later_in_minute (second_reading w) /\
  exists file,
    disk w' !! fname = Some file /\ disk v' !! fname = Some file /\
    exists blocks closing,
      pdf_story file
      = blocks ++ [Para (py "<b>Generated on:</b> " ++ py "January 01, 2025 - 12:00 AM" ++
                         closing) footer_style].
Proof.
  intros w v fname w' v'.
  assert (Hw : save_summary_as_pdf scenario_text w = (Return fname, w'))
    by (vm_compute; reflexivity).
  assert (Hv : save_summary_as_pdf scenario_text v = (Return fname, v'))
    by (vm_compute; reflexivity).
  split; [exact Hw|]. split; [exact Hv|].
  split; [exact new_year_valid|]. split; [exact later_in_minute_valid|].
  split; [discriminate|]. split; [discriminate|].
  destruct (render_clock_readings w scenario_text fname w' v fname v' Hw Hv
              new_year_valid later_in_minute_valid)
    as (Hr & _ & Hname & file & vfile & stamp & vstamp & Hf & Hvf & Hs & _ & Hstamp
        & (blocks & closing & Hb & _) & _ & Hsame).
  split; [exact Hr|].
  split; [intros (_ & _ & _ & _ & _ & H); discriminate H|].
  split; [repeat split|].
  destruct (Hsame eq_refl eq_refl) as [_ ->].
  exists file. split; [exact Hf|]. split; [exact Hvf|].
  exists blocks, closing. rewrite Hb, Hs. reflexivity.
Defined.

(** ** The paragraph engine on the markup of a call *)

Lemma run_app r a b :
  run r (a ++ b) = match run r a with Some r' => run r' b | None => None end.
Proof.
  revert r; induction a as [|c a IH]; intros r; [reflexivity|].
  simpl. destruct (step r c) as [r'|]; [apply IH | reflexivity].
Qed.

(** What has been shown so far does not bear on what is read next. *)
Lemma step_shown k m g0 gs c r1 :
  step {| open_tags := k; at_mode := m; shown := g0 |} c = Some r1 ->
  step {| open_tags := k; at_mode := m; shown := gs ++ g0 |} c
  = Some {| open_tags := open_tags r1; at_mode := at_mode r1; shown := gs ++ shown r1 |}.
Proof.
  unfold step. cbn [open_tags at_mode shown]. destruct m as [|body|name].
  - destruct (N.eqb c 60); [intros [= <-]; reflexivity|].
    destruct (N.eqb c 38); intros [= <-]; cbn [open_tags at_mode shown];
      rewrite ?app_assoc; reflexivity.
  - destruct (N.eqb c 62).
    + destruct (tag_step k body) as [[stack g]|]; [|discriminate].
      intros [= <-]. cbn [open_tags at_mode shown]. rewrite app_assoc. reflexivity.
    + destruct (N.eqb c 60); [discriminate|]. intros [= <-]. reflexivity.
  - destruct (N.eqb c 59).
    + destruct (entity name); [|discriminate].
      intros [= <-]. cbn [open_tags at_mode shown]. rewrite app_assoc. reflexivity.
    + destruct (isspace c).
      * intros [= <-]. cbn [open_tags at_mode shown]. rewrite app_assoc. reflexivity.
      * destruct (N.eqb c 60 || N.eqb c 38); [discriminate|]. intros [= <-]. reflexivity.
Qed.

Lemma run_shown s k m g0 gs r' :
  run {| open_tags := k; at_mode := m; shown := g0 |} s = Some r' ->
  run {| open_tags := k; at_mode := m; shown := gs ++ g0 |} s
  = Some {| open_tags := open_tags r'; at_mode := at_mode r'; shown := gs ++ shown r' |}.
Proof.
  revert k m g0 r'; induction s as [|c s IH]; intros k m g0 r'; simpl.
  - intros [= <-]. reflexivity.
  - destruct (step {| open_tags := k; at_mode := m; shown := g0 |} c) as [r1|] eqn:E;
      [|discriminate].
    rewrite (step_shown _ _ _ gs _ _ E). destruct r1 as [k1 m1 g1]. apply IH.
Qed.

(** A piece of markup read on an empty page tells how it is read anywhere. *)
Lemma run_piece k m gs p r' rest :
  run {| open_tags := k; at_mode := m; shown := [] |} p = Some r' ->
  run {| open_tags := k; at_mode := m; shown := gs |} (p ++ rest)
  = run {| open_tags := open_tags r'; at_mode := at_mode r'; shown := gs ++ shown r' |} rest.
Proof.
  intros H. rewrite run_app. apply (run_shown _ _ _ _ gs) in H.
  rewrite app_nil_r in H. rewrite H. reflexivity.
Qed.

Lemma run_plain k gs p rest :
  Forall plain_char p ->
  run {| open_tags := k; at_mode := Outside; shown := gs |} (p ++ rest)
  = run {| open_tags := k; at_mode := Outside; shown := gs ++ map (show k) p |} rest.
Proof.
  intros Hp. revert gs. induction Hp as [|c p [H1 H2] _ IH]; intros gs.
  - simpl. rewrite app_nil_r. reflexivity.
  - simpl. unfold step. cbn [open_tags at_mode shown].
    destruct (N.eqb_spec c 60) as [|_]; [congruence|].
    destruct (N.eqb_spec c 38) as [|_]; [congruence|].
    rewrite IH. rewrite <- app_assoc. reflexivity.
Qed.

Lemma stamp_plain t : Forall plain_char (generated_on t).
Proof.
  apply Forall_forall. intros c Hc. apply generated_on_chars in Hc.
  split; intros ->; discriminate Hc.
Qed.

Lemma digits_plain n : Forall plain_char (repr_nat n).
Proof.
  apply Forall_forall. intros c Hc. apply repr_nat_digits in Hc.
  split; intros ->; discriminate Hc.
Qed.

(** The engine takes the footer of every call, whatever the reading and the
    count. *)
Lemma footer_accepted t n : accepted (footer_with (generated_on t) (repr_nat n)) = true.
Proof.
  unfold accepted, interpret, footer_with, blank_page.
  erewrite run_piece by (vm_compute; reflexivity). cbn [open_tags at_mode shown].
  rewrite run_plain by apply stamp_plain.
  erewrite run_piece by (vm_compute; reflexivity). cbn [open_tags at_mode shown].
  erewrite run_piece by (vm_compute; reflexivity). cbn [open_tags at_mode shown].
  rewrite run_plain by apply digits_plain.
  erewrite run_piece by (vm_compute; reflexivity). cbn [open_tags at_mode shown].
  erewrite run_piece by (vm_compute; reflexivity). cbn [open_tags at_mode shown].
  erewrite run_piece by (vm_compute; reflexivity). cbn [open_tags at_mode shown].
  rewrite <- (app_nil_r (py " using Streamlit & Gemini</font>")).
  erewrite run_piece by (vm_compute; reflexivity). cbn [open_tags at_mode shown].
  reflexivity.
Qed.

(** C2, amended: where the document-composition capability is present, the
    scenario call succeeds, whatever the clock and the disk, and leaves a
    document of seven blocks.  Its card holds the converted text, which the
    paragraph engine reads as "Key Point" in bold, ": growth " plain,
    "accelerated" in italic, " in Q2." plain, a line break, then the bullet
    glyph and " Revenue up", the line-break tag and the bullet entity
    standing before " Revenue up" in the markup.  Its footer says
    "Word Count: 9", the nine words being those that [split] gives for the
    raw text.  Nothing of the call's own can fail on this text: in any
    runtime it returns exactly when ReportLab is there, takes the four
    paragraphs and builds the story. *)
Theorem scenario_render (now : nat -> datetime) (taken : nat) (files : gmap str pdf_file) :
  (forall w,
      (exists fname w', save_summary_as_pdf scenario_text w = (Return fname, w')) <->
      is_Some (A4 w) /\
      Forall (fun p => paragraph_ok w p = true)
        [py "<b>Key Point</b>: growth <i>accelerated</i> in Q2.<br/>&bull; Revenue up";
         title_text; subtitle_text; footer_text (second_reading w) scenario_text] /\
      build_ok w (story (second_reading w) scenario_text) = true) /\
  exists fname w' file footer,
    save_summary_as_pdf scenario_text (composing_world now taken files)
    = (Return fname, w') /\
    fname = py "AI_Summary_" ++ strftime (py "%Y%m%d_%H%M%S") (now taken) ++ py ".pdf" /\
    disk w' !! fname = Some file /\
    length (pdf_story file) = 7 /\
    pdf_story file !! 4
    = Some (card_of
              (Para (py "<b>Key Point</b>: growth <i>accelerated</i> in Q2.<br/>&bull; Revenue up")
                 body_style)) /\
    interpret (py "<b>Key Point</b>: growth <i>accelerated</i> in Q2.<br/>&bull; Revenue up")
    = Some (map (Glyph true false) (py "Key Point") ++
            map (Glyph false false) (py ": growth ") ++
            map (Glyph false true) (py "accelerated") ++
            map (Glyph false false) (py " in Q2.") ++
            [LineBreak] ++
            map (Glyph false false) ([bullet] ++ py " Revenue up")) /\
    contains (py "<br/>&bull; Revenue up")
      (py "<b>Key Point</b>: growth <i>accelerated</i> in Q2.<br/>&bull; Revenue up") = true /\
    last (pdf_story file) = Some (Para footer footer_style) /\
    footer
    = py "<b>Generated on:</b> " ++
      strftime (py "%B %d, %Y - %I:%M %p") (now (S taken)) ++
      py "  |  " ++ py "<b>Word Count:</b> " ++ py "9" ++
      py "<br/>" ++ py "<font color='#9CA3AF'>Made with " ++ [10084%N; 65039%N] ++
      py " using Streamlit & Gemini</font>" /\
    word_count_field footer = Some 9 /\
    split scenario_text
    = [py "**Key"; py "Point**:"; py "growth"; py "*accelerated*"; py "in"; py "Q2.";
       [bullet]; py "Revenue"; py "up"].
Proof.
  set (w := composing_world now taken files).
  assert (Hcard : convert_markdown_to_html scenario_text
                  = py "<b>Key Point</b>: growth <i>accelerated</i> in Q2.<br/>&bull; Revenue up")
    by (vm_compute; reflexivity).
  assert (Hnine : repr_nat (length (split scenario_text)) = py "9")
    by (vm_compute; reflexivity).
  assert (Hsave : save_summary_as_pdf scenario_text w
                  = (Return (filename_of (first_reading w)),
                     after_save w A4_sheet scenario_text)).
  { apply save_ok; [reflexivity | | reflexivity].
    unfold paragraphs. repeat apply Forall_cons_2; [| | | |constructor].
    - vm_compute. reflexivity.
    - vm_compute. reflexivity.
    - vm_compute. reflexivity.
    - exact (footer_accepted (second_reading w) (length (split scenario_text))). }
  split.
  { intros u. unfold paragraphs in *. rewrite <- Hcard. split.
    - intros (fname & u' & H). apply save_returns in H as (page & HA & Hp & Hb & _).
      split; [exists page; exact HA|]. split; [exact Hp | exact Hb].
    - intros ([page HA] & Hp & Hb). eexists _, _. exact (save_ok u page scenario_text HA Hp Hb). }
  exists (filename_of (first_reading w)), (after_save w A4_sheet scenario_text),
    {| pdf_template := template A4_sheet (filename_of (first_reading w));
       pdf_story := story (second_reading w) scenario_text |},
    (footer_text (second_reading w) scenario_text).
  split; [exact Hsave|].
  split; [reflexivity|].
  split; [apply after_save_lookup|].
  cbn [pdf_story].
  split; [reflexivity|].
  split; [unfold story, blocks_above_footer; rewrite Hcard; reflexivity|].
  split; [vm_compute; reflexivity|].
  split; [vm_compute; reflexivity|].
  split; [unfold story; apply last_snoc|].
  split; [unfold footer_text, footer_with, generated_on; rewrite Hnine; reflexivity|].
  split; [|vm_compute; reflexivity].
  unfold footer_text. rewrite Hnine. exact (word_count_field_footer (second_reading w) 9).
Qed.
